(** * evnsq::Client — the NSQ connection pool of apps/evnsq/client.cc

    A shallow embedding of [Client] (apps/evnsq/client.cc): the pool of
    [NSQConn] objects split over [connecting_conns_] and [conns_], the
    nsqlookupd response handler, and the close protocol.

    Conventions of the embedding:
    - a [ConnPtr] is the identity of a heap-allocated [NSQConn]; the objects
      live in [heap], so that two pointers are equal exactly when they are
      the same object (the source compares the pointers);
    - [std::map<std::string, ConnPtr>] is a [gmap string (option ConnPtr)],
      [None] being the null pointer that [operator[]] default-constructs;
      an iteration over the map visits its entries in ascending order of
      the keys ([entries_in_key_order]);
    - [std::vector<ConnPtr>] is a [list ConnPtr];
    - requests sent to collaborators (transport, HTTP client, timers) and
      invocations of user callbacks are appended to [trace];
    - functors handed to [EventLoop::QueueInLoop] are appended to [pending]
      and only run when the loop takes them ([RunPending]);
    - a failed [assert] / [RAPIDJSON_ASSERT] or a null dereference ends the
      run with [Crash]; log statements are not modelled. *)

From stdpp Require Import gmap strings list fin_maps pretty sorting.

Open Scope string_scope.
Open Scope list_scope.
Open Scope Z_scope.

(** ** Errors *)

Inductive Fault :=
  | AssertFailed      (* assert(...) of client.cc *)
  | JsonAssert        (* RAPIDJSON_ASSERT inside a rapidjson accessor *)
  | NullDeref.        (* call through a null ConnPtr *)

Inductive result (A : Type) :=
  | Ok (a : A)
  | Crash (f : Fault).
Arguments Ok {A} a.
Arguments Crash {A} f.

Definition rbind {A B} (r : result A) (k : A → result B) : result B :=
  match r with
  | Ok a => k a
  | Crash f => Crash f
  end.

Notation "x ←! r ; k" := (rbind r (λ x, k))
  (at level 20, r at level 100, k at level 200, right associativity,
   format "x  ←!  r ;  '/' k").

Definition assert (b : bool) : result unit :=
  if b then Ok () else Crash AssertFailed.

(** ** Connections *)

(** Modelled from the spec: [NSQConn::Status] is declared in nsq_conn.h,
    which is not part of the sources at hand; the spec (section 3) gives the
    status as one of Disconnected, Connecting, Connected, Ready. *)
Inductive Status := kDisconnected | kConnecting | kConnected | kReady.

Global Instance Status_eq_dec : EqDecision Status.
Proof. solve_decision. Defined.

(** Pointers are object identities. *)
Abbreviation ConnPtr := nat (only parsing).

(** The part of an [NSQConn] that client.cc reads or writes. *)
Record NSQConn := mkNSQConn {
  remote_addr : string;
  status : Status;
  msg_fn : bool;      (* SetMessageCallback has installed the client's msg_fn_ *)
  conn_fn : bool      (* SetConnectionCallback has installed Client::OnConnection *)
}.

(** [new NSQConn(this, option_)]: not yet connected to anything. *)
Definition fresh_NSQConn : NSQConn :=
  {| remote_addr := ""; status := kDisconnected; msg_fn := false; conn_fn := false |}.

Definition IsConnected (c : NSQConn) : bool := bool_decide (status c = kConnected).
Definition IsReady (c : NSQConn) : bool := bool_decide (status c = kReady).
Definition IsConnecting (c : NSQConn) : bool := bool_decide (status c = kConnecting).
Definition IsDisconnected (c : NSQConn) : bool := bool_decide (status c = kDisconnected).

(** ** The client *)

Inductive ClientType := kProducer | kConsumer.

Global Instance ClientType_eq_dec : EqDecision ClientType.
Proof. solve_decision. Defined.

Abbreviation TimerPtr := nat (only parsing).

(** Functors queued on the event loop. *)
Inductive Task :=
  | TaskClose                               (* the lambda of Client::Close *)
  | TaskCheckDisconnected (conn : ConnPtr). (* the lambda of Client::OnConnection *)

(** What the client asks of its collaborators, and the callbacks it fires. *)
Inductive Event :=
  | EvConnect (conn : ConnPtr) (addr : string)          (* c->Connect(addr) *)
  | EvSubscribe (conn : ConnPtr) (topic channel : string) (* conn->Subscribe(topic_, channel_) *)
  | EvReadyToPublish (conn : ConnPtr)                   (* ready_to_publish_fn_(conn.get()) *)
  | EvCloseFn                                           (* close_fn_() *)
  | EvConnClose (conn : ConnPtr)                        (* conn->Close() *)
  | EvHttpGet (url : string)                            (* Request::Execute *)
  | EvRunEvery (timer : TimerPtr) (url : string)        (* loop_->RunEvery(interval, f) *)
  | EvTimerCancel (timer : TimerPtr).                   (* timer->Cancel() *)

Global Instance Event_eq_dec : EqDecision Event.
Proof. solve_decision. Defined.

Record Client := mkClient {
  (* members of Client *)
  type_ : ClientType;
  topic_ : string;
  channel_ : string;
  closing_ : bool;
  conns_ : list ConnPtr;
  connecting_conns_ : gmap string (option ConnPtr);
  lookupd_timers_ : list TimerPtr;
  msg_fn_ : bool;
  ready_to_publish_fn_ : bool;
  close_fn_ : bool;
  (* the surroundings: NSQConn objects, the loop's queue, what was requested *)
  heap : list NSQConn;
  next_timer : TimerPtr;
  pending : list Task;
  trace : list Event
}.

(** [Client::Client(l, t, ops)]; the callbacks and the subscription are set
    by the caller before use. *)
Definition new_Client (t : ClientType) (topic channel : string)
    (msg ready close : bool) : Client :=
  {| type_ := t; topic_ := topic; channel_ := channel; closing_ := false;
     conns_ := []; connecting_conns_ := ∅; lookupd_timers_ := [];
     msg_fn_ := msg; ready_to_publish_fn_ := ready; close_fn_ := close;
     heap := []; next_timer := 0%nat; pending := []; trace := [] |}.

Definition set_closing (b : bool) (s : Client) : Client :=
  mkClient (type_ s) (topic_ s) (channel_ s) b (conns_ s) (connecting_conns_ s)
    (lookupd_timers_ s) (msg_fn_ s) (ready_to_publish_fn_ s) (close_fn_ s)
    (heap s) (next_timer s) (pending s) (trace s).

Definition set_conns (l : list ConnPtr) (s : Client) : Client :=
  mkClient (type_ s) (topic_ s) (channel_ s) (closing_ s) l (connecting_conns_ s)
    (lookupd_timers_ s) (msg_fn_ s) (ready_to_publish_fn_ s) (close_fn_ s)
    (heap s) (next_timer s) (pending s) (trace s).

Definition set_connecting (m : gmap string (option ConnPtr)) (s : Client) : Client :=
  mkClient (type_ s) (topic_ s) (channel_ s) (closing_ s) (conns_ s) m
    (lookupd_timers_ s) (msg_fn_ s) (ready_to_publish_fn_ s) (close_fn_ s)
    (heap s) (next_timer s) (pending s) (trace s).

Definition set_timers (l : list TimerPtr) (n : TimerPtr) (s : Client) : Client :=
  mkClient (type_ s) (topic_ s) (channel_ s) (closing_ s) (conns_ s)
    (connecting_conns_ s) l (msg_fn_ s) (ready_to_publish_fn_ s) (close_fn_ s)
    (heap s) n (pending s) (trace s).

Definition set_heap (h : list NSQConn) (s : Client) : Client :=
  mkClient (type_ s) (topic_ s) (channel_ s) (closing_ s) (conns_ s)
    (connecting_conns_ s) (lookupd_timers_ s) (msg_fn_ s)
    (ready_to_publish_fn_ s) (close_fn_ s) h (next_timer s) (pending s) (trace s).

Definition set_pending (q : list Task) (s : Client) : Client :=
  mkClient (type_ s) (topic_ s) (channel_ s) (closing_ s) (conns_ s)
    (connecting_conns_ s) (lookupd_timers_ s) (msg_fn_ s)
    (ready_to_publish_fn_ s) (close_fn_ s) (heap s) (next_timer s) q (trace s).

Definition set_trace (t : list Event) (s : Client) : Client :=
  mkClient (type_ s) (topic_ s) (channel_ s) (closing_ s) (conns_ s)
    (connecting_conns_ s) (lookupd_timers_ s) (msg_fn_ s)
    (ready_to_publish_fn_ s) (close_fn_ s) (heap s) (next_timer s) (pending s) t.

Definition emit (e : Event) (s : Client) : Client := set_trace (trace s ++ [e]) s.

(** [loop_->QueueInLoop(f)]: never runs [f] inline. *)
Definition QueueInLoop (t : Task) (s : Client) : Client :=
  set_pending (pending s ++ [t]) s.

(** ** NSQConn objects on the heap *)

(** [*conn]; a [ConnPtr] held by the client always points to an object. *)
Definition deref (s : Client) (conn : ConnPtr) : NSQConn :=
  default fresh_NSQConn (heap s !! conn).

Definition addr_of (s : Client) (conn : ConnPtr) : string := remote_addr (deref s conn).
Definition status_of (s : Client) (conn : ConnPtr) : Status := status (deref s conn).

Definition update_conn (conn : ConnPtr) (f : NSQConn → NSQConn) (s : Client) : Client :=
  set_heap (alter f conn (heap s)) s.

(** [ConnPtr(new NSQConn(this, option_))] *)
Definition new_NSQConn (s : Client) : ConnPtr * Client :=
  (length (heap s), set_heap (heap s ++ [fresh_NSQConn]) s).

Definition SetMessageCallback (conn : ConnPtr) (fn : bool) : Client → Client :=
  update_conn conn (λ o, mkNSQConn (remote_addr o) (status o) fn (conn_fn o)).

Definition SetConnectionCallback (conn : ConnPtr) : Client → Client :=
  update_conn conn (λ o, mkNSQConn (remote_addr o) (status o) (msg_fn o) true).

Definition set_status (conn : ConnPtr) (st : Status) : Client → Client :=
  update_conn conn (λ o, mkNSQConn (remote_addr o) st (msg_fn o) (conn_fn o)).

(** Modelled from the spec: [NSQConn::Connect] is defined in nsq_conn.cc,
    which is not part of the sources at hand; by the spec (section 4.1) the
    connection is in Connecting status for [addr] and the transport is asked
    to begin connecting. *)
Definition Connect (conn : ConnPtr) (addr : string) (s : Client) : Client :=
  emit (EvConnect conn addr)
    (update_conn conn (λ o, mkNSQConn addr kConnecting (msg_fn o) (conn_fn o)) s).

(** Modelled from the spec: [NSQConn::Subscribe] is defined in nsq_conn.cc;
    by the spec (section 4.1) a subscribe request is issued and the status is
    left as it is. *)
Definition Subscribe (conn : ConnPtr) (topic channel : string) (s : Client) : Client :=
  emit (EvSubscribe conn topic channel) s.

(** Modelled from the spec: [NSQConn::Close] is defined in nsq_conn.cc; the
    close is a request to the connection, whose Disconnected report arrives
    later through [OnConnection]. *)
Definition ConnClose (conn : ConnPtr) (s : Client) : Client :=
  emit (EvConnClose conn) s.

(** ** Pool bookkeeping *)

(** [Client::IsKnownNSQDAddress] *)
Definition IsKnownNSQDAddress (addr : string) (s : Client) : bool :=
  if decide (is_Some (connecting_conns_ s !! addr)) then true
  else existsb (λ c, bool_decide (addr_of s c = addr)) (conns_ s).

(** The loop over [conns_] that erases the element equal to [conn] and
    breaks: the first occurrence of [conn] is erased, later ones stay. *)
Fixpoint erase_first (conn : ConnPtr) (l : list ConnPtr) : list ConnPtr :=
  match l with
  | [] => []
  | c :: l' => if decide (c = conn) then l' else c :: erase_first conn l'
  end.

(** [connecting_conns_[addr]] as an lvalue: a missing key is inserted with a
    null pointer. *)
Definition subscript (addr : string) (m : gmap string (option ConnPtr))
    : gmap string (option ConnPtr) :=
  match m !! addr with
  | Some _ => m
  | None => <[addr := None]> m
  end.

(** [Client::MoveToConnectingList] *)
Definition MoveToConnectingList (conn : ConnPtr) (s : Client) : Client :=
  let addr := addr_of s conn in
  let s1 := set_connecting (subscript addr (connecting_conns_ s)) s in
  match connecting_conns_ s1 !! addr with
  | Some (Some _) =>
      (* already in the connecting list *)
      s1
  | _ =>
      if decide (conn ∈ conns_ s1) then
        set_conns (erase_first conn (conns_ s1))
          (set_connecting (<[addr := Some conn]> (connecting_conns_ s1)) s1)
      else s1
  end.

(** [Client::ConnectToNSQD] *)
Definition ConnectToNSQD (addr : string) (s : Client) : Client :=
  let '(c, s1) := new_NSQConn s in
  let s2 := set_connecting (<[addr := Some c]> (connecting_conns_ s1)) s1 in
  let s3 := SetMessageCallback c (msg_fn_ s2) s2 in
  let s4 := SetConnectionCallback c s3 in
  Connect c addr s4.

(** [Client::ConnectToNSQDs(const std::vector<std::string>&)] *)
Definition ConnectToNSQDs (tcp_addrs : list string) (s : Client) : Client :=
  foldl (λ s addr, ConnectToNSQD addr s) s tcp_addrs.

(** [Client::ConnectToLookupd]: the query runs once at once ([RunInLoop] on
    the loop's own thread) and is registered as a periodic task whose handle
    is kept. *)
Definition ConnectToLookupd (lookupd_url : string) (s : Client) : Client :=
  let s1 := emit (EvHttpGet lookupd_url) s in
  let timer := next_timer s1 in
  let s2 := emit (EvRunEvery timer lookupd_url) s1 in
  set_timers (lookupd_timers_ s2 ++ [timer]) (S timer) s2.

(** The periodic task fires: one more query. *)
Definition LookupdTimerFires (lookupd_url : string) (s : Client) : Client :=
  emit (EvHttpGet lookupd_url) s.

(** [std::less<std::string>]: the strings compared byte by byte, a proper
    prefix before its extensions. *)
Definition key_le (x y : string * option nat) : Prop :=
  String.leb x.1 y.1 = true.

Global Instance key_le_dec : RelDecision key_le.
Proof. intros x y. unfold key_le. apply _. Defined.

(** [for (it = m.begin(); it != m.end(); ++it)] over a [std::map]: the
    entries in ascending order of their keys. *)
Definition entries_in_key_order (m : gmap string (option nat))
    : list (string * option nat) :=
  merge_sort key_le (map_to_list m).

(** [Client::Close] *)
Definition Close (s : Client) : Client :=
  QueueInLoop TaskClose (set_closing true s).

(** The second loop of the lambda of [Close]: [it->second->Close()] for every
    entry, in the order of the map's iteration. *)
Fixpoint close_connecting (l : list (string * option ConnPtr)) (s : Client)
    : result Client :=
  match l with
  | [] => Ok s
  | (_, Some c) :: l' => close_connecting l' (ConnClose c s)
  | (_, None) :: _ => Crash NullDeref
  end.

(** The lambda [f] of [Client::Close]. *)
Definition CloseTask (s : Client) : result Client :=
  let s1 := foldl (λ s c, ConnClose c s) s (conns_ s) in
  s2 ←! close_connecting (entries_in_key_order (connecting_conns_ s1)) s1;
  let s3 := foldl (λ s t, emit (EvTimerCancel t) s) s2 (lookupd_timers_ s2) in
  Ok (set_timers [] (next_timer s3) s3).

(** The lambda [f] of [Client::OnConnection]. *)
Definition CheckDisconnectedTask (conn : ConnPtr) (s : Client) : result Client :=
  _ ←! assert (IsDisconnected (deref s conn));
  Ok s.

Definition RunTask (t : Task) (s : Client) : result Client :=
  match t with
  | TaskClose => CloseTask s
  | TaskCheckDisconnected conn => CheckDisconnectedTask conn s
  end.

(** The loop takes the first queued functor and runs it. *)
Definition RunPending (s : Client) : result Client :=
  match pending s with
  | [] => Ok s
  | t :: q => RunTask t (set_pending q s)
  end.

(** [Client::OnConnection] *)
Definition OnConnection (conn : ConnPtr) (s : Client) : result Client :=
  let o := deref s conn in
  if IsConnected o || IsReady o then
    let s1 := set_conns (conns_ s ++ [conn]) s in
    let s2 := set_connecting (delete (remote_addr o) (connecting_conns_ s1)) s1 in
    match status o with
    | kConnected =>
        match type_ s2 with
        | kConsumer => Ok (Subscribe conn (topic_ s2) (channel_ s2) s2)
        | kProducer =>
            let s3 := set_status conn kReady s2 in
            Ok (if ready_to_publish_fn_ s3 then emit (EvReadyToPublish conn) s3 else s3)
        end
    | kReady =>
        _ ←! assert (bool_decide (type_ s2 = kConsumer));
        Ok s2
    | _ => Ok s2
    end
  else if IsConnecting o then
    Ok (MoveToConnectingList conn s)
  else
    let s1 := set_conns (erase_first conn (conns_ s)) s in
    let s2 := set_connecting (delete (remote_addr o) (connecting_conns_ s1)) s1 in
    let s3 :=
      if bool_decide (connecting_conns_ s2 = ∅) && bool_decide (conns_ s2 = [])
      then (if close_fn_ s2 then emit EvCloseFn s2 else s2)
      else s2 in
    Ok (QueueInLoop (TaskCheckDisconnected conn) s3).

(** An [NSQConn] changes its status and reports it through the connection
    callback that [ConnectToNSQD] installed. *)
Definition Report (conn : ConnPtr) (st : Status) (s : Client) : result Client :=
  OnConnection conn (set_status conn st s).

(** ** The nsqlookupd response *)

(** The document that [doc.Parse(body.c_str())] leaves: rapidjson belongs to
    the JSON collaborator, outside client.cc. A body that is not JSON leaves
    a null document. Numbers are the integers; [GetInt] wants an [int]. *)
#[local] Unset Elimination Schemes.
Inductive json :=
  | JNull
  | JBool (b : bool)
  | JNumber (n : Z)
  | JString (str : string)
  | JArray (elems : list json)
  | JObject (members : list (string * json)).
#[local] Set Elimination Schemes.

Fixpoint find_member (name : string) (members : list (string * json)) : option json :=
  match members with
  | [] => None
  | (k, v) :: rest => if decide (k = name) then Some v else find_member name rest
  end.

(** [v[name]]: asserts that [v] is an object that has the member. *)
Definition member (name : string) (v : json) : result json :=
  match v with
  | JObject ms =>
      match find_member name ms with
      | Some x => Ok x
      | None => Crash JsonAssert
      end
  | _ => Crash JsonAssert
  end.

(** [v.GetInt()]: asserts that [v] is a number that fits an [int]. *)
Definition GetInt (v : json) : result Z :=
  match v with
  | JNumber n =>
      if bool_decide (-2147483648 ≤ n ≤ 2147483647) then Ok n else Crash JsonAssert
  | _ => Crash JsonAssert
  end.

(** [v.GetString()]: asserts that [v] is a string. *)
Definition GetString (v : json) : result string :=
  match v with
  | JString str => Ok str
  | _ => Crash JsonAssert
  end.

(** [v.Size()] and [v[i]] for [i < v.Size()]: assert that [v] is an array. *)
Definition elements_of (v : json) : result (list json) :=
  match v with
  | JArray l => Ok l
  | _ => Crash JsonAssert
  end.

(** [std::string(const char* )]: the characters before the first NUL.
    [GetString()] returns a [const char*], from which [broadcast_address]
    is constructed. *)
Fixpoint from_c_str (str : string) : string :=
  match str with
  | EmptyString => EmptyString
  | String c rest =>
      if decide (c = Ascii.zero) then EmptyString else String c (from_c_str rest)
  end.

(** [std::to_string(int)] *)
Definition to_string (n : Z) : string := pretty n.

Record Response := mkResponse {
  http_code : Z;
  body : json
}.

(** The body of the loop over [producers] in [HandleLoopkupdHTTPResponse]. *)
Definition connect_producer (producer : json) (s : Client) : result Client :=
  chars ←! (v ←! member "broadcast_address" producer; GetString v);
  let broadcast_address := from_c_str chars in
  tcp_port ←! (v ←! member "tcp_port" producer; GetInt v);
  let addr := broadcast_address +:+ ":" +:+ to_string tcp_port in
  if negb (IsKnownNSQDAddress addr s) then Ok (ConnectToNSQD addr s) else Ok s.

Fixpoint connect_producers (producers : list json) (s : Client) : result Client :=
  match producers with
  | [] => Ok s
  | producer :: rest => s' ←! connect_producer producer s; connect_producers rest s'
  end.

(** [Client::HandleLoopkupdHTTPResponse] *)
Definition HandleLoopkupdHTTPResponse (response : Response) (s : Client)
    : result Client :=
  if bool_decide (http_code response ≠ 200) then Ok s
  else
    let doc := body response in
    status_code ←! (v ←! member "status_code" doc; GetInt v);
    if bool_decide (status_code ≠ 200) then Ok s
    else
      producers ←! (d ←! member "data" doc; p ←! member "producers" d; elements_of p);
      connect_producers producers s.

(** ** Runs of the pool *)

(** What can happen to a client: calls of its public interface, a lookupd
    response delivered by the HTTP client, a status report of one of its
    connections, and the loop running a queued functor. *)
Inductive Op :=
  | OpConnectToNSQD (addr : string)
  | OpConnectToLookupd (lookupd_url : string)
  | OpLookupdResponse (response : Response)
  | OpReport (conn : ConnPtr) (st : Status)
  | OpClose
  | OpRunPending.

Definition apply_op (op : Op) (s : Client) : result Client :=
  match op with
  | OpConnectToNSQD addr => Ok (ConnectToNSQD addr s)
  | OpConnectToLookupd url => Ok (ConnectToLookupd url s)
  | OpLookupdResponse response => HandleLoopkupdHTTPResponse response s
  | OpReport conn st => Report conn st s
  | OpClose => Ok (Close s)
  | OpRunPending => RunPending s
  end.

(** The states a client reaches from its construction by operations that
    pass [guard]. *)
Inductive reach (guard : Client → Op → bool) : Client → Prop :=
  | reach_new t topic channel msg ready close :
      reach guard (new_Client t topic channel msg ready close)
  | reach_step s op s' :
      reach guard s → guard s op = true → apply_op op s = Ok s' →
      reach guard s'.

Definition any_op (s : Client) (op : Op) : bool := true.

(** ** Membership *)

Definition active_addrs (s : Client) : list string := addr_of s <$> conns_ s.

Definition in_connecting (addr : string) (s : Client) : Prop :=
  is_Some (connecting_conns_ s !! addr).

Definition in_active (addr : string) (s : Client) : Prop :=
  addr ∈ active_addrs s.

(** No address is held by both collections. *)
Definition exclusive (s : Client) : Prop :=
  ∀ addr, ¬ (in_connecting addr s ∧ in_active addr s).

(** The connections the pool holds: those of [conns_], then the non-null
    ones of [connecting_conns_] in the order of the map's iteration. *)
Definition connecting_ptrs (s : Client) : list ConnPtr :=
  omap snd (entries_in_key_order (connecting_conns_ s)).

Definition pool_conns (s : Client) : list ConnPtr :=
  conns_ s ++ connecting_ptrs s.

Definition pool_empty (s : Client) : Prop :=
  connecting_conns_ s = ∅ ∧ conns_ s = [].

Definition allocated (s : Client) (c : ConnPtr) : bool :=
  bool_decide (c < length (heap s))%nat.

(** An entry of [connecting_conns_] is sound when its connection is a live
    object for the entry's address (a null entry is sound only where [nulls]
    allows it) and no active connection has that address. *)
Definition entry_ok (nulls : bool) (s : Client) (e : string * option ConnPtr) : bool :=
  match e.2 with
  | Some c => allocated s c && bool_decide (addr_of s c = e.1)
  | None => nulls
  end && bool_decide (e.1 ∉ active_addrs s).

(** Well-formed pools, as a check that runs. *)
Definition pool_ok (nulls : bool) (s : Client) : bool :=
  forallb (allocated s) (conns_ s)
  && bool_decide (NoDup (active_addrs s))
  && forallb (entry_ok nulls s) (map_to_list (connecting_conns_ s)).

(** [Report conn kDisconnected] for each connection of [cs] in turn. *)
Fixpoint disconnect_all (cs : list ConnPtr) (s : Client) : result Client :=
  match cs with
  | [] => Ok s
  | c :: cs' => s' ←! Report c kDisconnected s; disconnect_all cs' s'
  end.

(** The operations under which the two collections stay apart: a connect
    only to an address that is not known (what the lookupd handler checks
    before it connects), a Connected or Ready report only from a connection
    whose address is in [connecting_conns_], a Connecting report only from a
    connection the pool holds in [conns_] or whose address no active
    connection has. *)
Definition orderly (s : Client) (op : Op) : bool :=
  match op with
  | OpConnectToNSQD addr => negb (IsKnownNSQDAddress addr s)
  | OpReport conn st =>
      allocated s conn &&
      match st with
      | kConnected | kReady =>
          bool_decide (is_Some (connecting_conns_ s !! addr_of s conn))
      | kConnecting =>
          bool_decide (conn ∈ conns_ s) || bool_decide (addr_of s conn ∉ active_addrs s)
      | kDisconnected => true
      end
  | _ => true
  end.

(** * Properties *)

(** ** Setters and the heap *)

Section heap_facts.
Implicit Types (s : Client) (c : ConnPtr) (f : NSQConn → NSQConn).

Lemma deref_update_conn_ne s c c' f :
  c ≠ c' → deref (update_conn c f s) c' = deref s c'.
Proof.
  intros Hne. unfold deref, update_conn; simpl.
  by rewrite list_lookup_alter_ne.
Qed.

Lemma deref_update_conn_eq s c f :
  (c < length (heap s))%nat → deref (update_conn c f s) c = f (deref s c).
Proof.
  intros Hlt. unfold deref, update_conn; simpl.
  rewrite list_lookup_alter_eq.
  destruct (lookup_lt_is_Some_2 (heap s) c Hlt) as [o ->]. done.
Qed.

Lemma addr_of_update_conn s c c' f :
  (∀ o, remote_addr (f o) = remote_addr o) →
  addr_of (update_conn c f s) c' = addr_of s c'.
Proof.
  intros Hf. unfold addr_of, deref, update_conn; simpl.
  destruct (decide (c = c')) as [->|Hne].
  - rewrite list_lookup_alter_eq. destruct (heap s !! c'); simpl; auto.
  - by rewrite list_lookup_alter_ne.
Qed.

Lemma addr_of_heap s s' c : heap s = heap s' → addr_of s c = addr_of s' c.
Proof. unfold addr_of, deref. by intros ->. Qed.

Lemma status_of_heap s s' c : heap s = heap s' → status_of s c = status_of s' c.
Proof. unfold status_of, deref. by intros ->. Qed.

Lemma addr_of_set_status s c st c' : addr_of (set_status c st s) c' = addr_of s c'.
Proof. by apply addr_of_update_conn. Qed.

Lemma status_of_set_status s c st :
  (c < length (heap s))%nat → status_of (set_status c st s) c = st.
Proof.
  intros Hlt. unfold status_of, set_status. by rewrite deref_update_conn_eq.
Qed.

Lemma active_addrs_set_status s c st :
  active_addrs (set_status c st s) = active_addrs s.
Proof.
  unfold active_addrs; simpl. apply list_fmap_ext.
  intros _ c' _. apply addr_of_set_status.
Qed.

(** A status report of a connection that was never allocated reads the
    default object, which is disconnected. *)
Lemma status_of_set_disconnected s c :
  status_of (set_status c kDisconnected s) c = kDisconnected.
Proof.
  unfold status_of, deref, set_status, update_conn; simpl.
  rewrite list_lookup_alter_eq. by destruct (heap s !! c).
Qed.

Lemma alter_last {A} (g : A → A) (l : list A) (x : A) :
  alter g (length l) (l ++ [x]) = l ++ [g x].
Proof. induction l as [|y l IH]; simpl; [done | by f_equal]. Qed.

(** [ConnectToNSQD] in one step. *)
Lemma ConnectToNSQD_eq addr s :
  ConnectToNSQD addr s =
  set_trace (trace s ++ [EvConnect (length (heap s)) addr])
    (set_heap (heap s ++ [mkNSQConn addr kConnecting (msg_fn_ s) true])
      (set_connecting (<[addr := Some (length (heap s))]> (connecting_conns_ s)) s)).
Proof.
  destruct s as [ty tp ch cl cs m tm mf rf cf h nt q tr].
  cbv [ConnectToNSQD new_NSQConn Connect SetConnectionCallback SetMessageCallback
       update_conn emit set_trace set_heap set_connecting
       type_ topic_ channel_ closing_ conns_ connecting_conns_ lookupd_timers_
       msg_fn_ ready_to_publish_fn_ close_fn_ heap next_timer pending trace
       remote_addr status msg_fn conn_fn].
  by rewrite !alter_last.
Qed.

End heap_facts.

(** ** The close protocol *)

Section close_facts.
Implicit Types (s : Client).

Lemma set_trace_id s : set_trace (trace s) s = s.
Proof. by destruct s. Qed.

Lemma foldl_emit {A} (g : A → Event) (l : list A) s :
  foldl (λ s x, emit (g x) s) s l = set_trace (trace s ++ (g <$> l)) s.
Proof.
  revert s. induction l as [|x l IH]; intros s; simpl.
  - by rewrite app_nil_r, set_trace_id.
  - rewrite IH. unfold emit, set_trace; simpl. by rewrite <- app_assoc.
Qed.

Definition non_null (e : string * option nat) : bool :=
  match e.2 with Some _ => true | None => false end.

Lemma close_connecting_eq (l : list (string * option nat)) s :
  close_connecting l s =
  if forallb non_null l
  then Ok (set_trace (trace s ++ (EvConnClose <$> omap snd l)) s)
  else Crash NullDeref.
Proof.
  revert s. induction l as [|[a [c|]] l IH]; intros s; simpl.
  - by rewrite app_nil_r, set_trace_id.
  - rewrite IH. destruct (forallb non_null l); [|done].
    unfold ConnClose, emit, set_trace; simpl. by rewrite <- app_assoc.
  - done.
Qed.

Lemma forallb_Permutation {A} (f : A → bool) (l l' : list A) :
  l ≡ₚ l' → forallb f l = forallb f l'.
Proof.
  induction 1 as [|x l l' _ IH|x y l|l1 l2 l3 _ IH1 _ IH2]; simpl.
  - done.
  - by rewrite IH.
  - by destruct (f x), (f y).
  - by rewrite IH1.
Qed.

Lemma entries_in_key_order_perm (m : gmap string (option nat)) :
  entries_in_key_order m ≡ₚ map_to_list m.
Proof. apply merge_sort_Permutation. Qed.

Lemma elem_of_entries_in_key_order (m : gmap string (option nat)) a oc :
  (a, oc) ∈ entries_in_key_order m ↔ m !! a = Some oc.
Proof. by rewrite entries_in_key_order_perm, elem_of_map_to_list. Qed.

Lemma entries_in_key_order_empty : entries_in_key_order ∅ = [].
Proof. unfold entries_in_key_order. by rewrite map_to_list_empty. Qed.

(** The teardown functor in one step: a close request for every connection
    of [conns_] and then of [connecting_conns_], a cancel for every timer,
    and the timer list cleared; a null entry of [connecting_conns_] is
    dereferenced. *)
Lemma CloseTask_eq s :
  CloseTask s =
  if forallb non_null (map_to_list (connecting_conns_ s))
  then Ok (set_timers [] (next_timer s)
             (set_trace (trace s ++ (EvConnClose <$> pool_conns s)
                                 ++ (EvTimerCancel <$> lookupd_timers_ s)) s))
  else Crash NullDeref.
Proof.
  unfold CloseTask, ConnClose. rewrite foldl_emit. simpl.
  rewrite close_connecting_eq. simpl.
  rewrite (forallb_Permutation _ _ _ (entries_in_key_order_perm (connecting_conns_ s))).
  destruct (forallb non_null _); simpl; [|done].
  rewrite foldl_emit. unfold pool_conns, connecting_ptrs, set_timers, set_trace; simpl.
  by rewrite fmap_app, <- !app_assoc.
Qed.

End close_facts.

(** C7. [Close()] runs no part of the teardown itself: on return the two
    collections, the timer list, the connection objects and the trace of
    requests are what they were, [closing_] is set and the teardown functor
    is the last entry of the loop's queue. The functor, when the loop runs
    it, sends the close requests to the connections of [conns_] and
    [connecting_conns_], cancels the timers and clears the timer list. *)
Theorem Close_defers_teardown (s : Client) :
  closing_ (Close s) = true
  ∧ conns_ (Close s) = conns_ s
  ∧ connecting_conns_ (Close s) = connecting_conns_ s
  ∧ lookupd_timers_ (Close s) = lookupd_timers_ s
  ∧ heap (Close s) = heap s
  ∧ trace (Close s) = trace s
  ∧ pending (Close s) = pending s ++ [TaskClose]
  ∧ RunTask TaskClose s =
      if forallb non_null (map_to_list (connecting_conns_ s))
      then Ok (set_timers [] (next_timer s)
                 (set_trace (trace s ++ (EvConnClose <$> pool_conns s)
                                     ++ (EvTimerCancel <$> lookupd_timers_ s)) s))
      else Crash NullDeref.
Proof.
  repeat split; try reflexivity. simpl. apply CloseTask_eq.
Qed.

(** C9. [Close()] on a pool without connections: neither the call nor the
    teardown functor it queued invokes [close_fn_]; the call adds nothing to
    the trace, and the functor adds the timer cancellations only. *)
Theorem Close_empty_pool_no_callback (s : Client) :
  connecting_conns_ s = ∅ → conns_ s = [] →
  trace (Close s) = trace s
  ∧ ∃ s', RunTask TaskClose (Close s) = Ok s'
          ∧ trace s' = trace s ++ (EvTimerCancel <$> lookupd_timers_ s)
          ∧ (EvCloseFn ∉ EvTimerCancel <$> lookupd_timers_ s)
          ∧ pool_empty s'.
Proof.
  intros Hm Hc. split; [reflexivity|].
  simpl. rewrite CloseTask_eq.
  unfold pool_conns, connecting_ptrs. simpl.
  rewrite Hm, Hc, map_to_list_empty, entries_in_key_order_empty. simpl.
  eexists; split; [reflexivity|]. simpl. repeat split; try done.
  intros (t & [=] & _)%list_elem_of_fmap.
Qed.

Lemma Close_empty_pool_no_callback_witness :
  let s := ConnectToLookupd "http://127.0.0.1:4161/lookup?topic=test"
             (new_Client kProducer "" "" false false true) in
  trace (Close s) = trace s
  ∧ ∃ s', RunTask TaskClose (Close s) = Ok s'
          ∧ trace s' = trace s ++ (EvTimerCancel <$> lookupd_timers_ s)
          ∧ (EvCloseFn ∉ EvTimerCancel <$> lookupd_timers_ s)
          ∧ pool_empty s'.
Proof.
  intros s. apply (Close_empty_pool_no_callback s); vm_compute; reflexivity.
Defined.

(** ** Known addresses *)

Section known_facts.
Implicit Types (s : Client) (addr : string).

Lemma IsKnownNSQDAddress_true addr s :
  IsKnownNSQDAddress addr s = true ↔ in_connecting addr s ∨ in_active addr s.
Proof.
  unfold IsKnownNSQDAddress, in_connecting, in_active, active_addrs.
  destruct (decide (is_Some (connecting_conns_ s !! addr))) as [Hin|Hout].
  - split; auto.
  - rewrite existsb_exists. split.
    + intros (c & Hc%list_elem_of_In & Heq%bool_decide_eq_true). right.
      apply list_elem_of_fmap. eauto.
    + intros [Hin|(c & -> & Hc)%list_elem_of_fmap]; [done|].
      exists c. split; [by apply list_elem_of_In | by apply bool_decide_eq_true].
Qed.

Lemma IsKnownNSQDAddress_false addr s :
  IsKnownNSQDAddress addr s = false ↔
  connecting_conns_ s !! addr = None ∧ addr ∉ active_addrs s.
Proof.
  rewrite <- not_true_iff_false, IsKnownNSQDAddress_true.
  unfold in_connecting, in_active. rewrite eq_None_not_Some. tauto.
Qed.

End known_facts.

(** ** Status reports *)

Section dispatch_facts.
Implicit Types (s : Client) (conn : nat).

Lemma OnConnection_connected conn s :
  status_of s conn = kConnected →
  OnConnection conn s =
  let s2 := set_connecting (delete (addr_of s conn) (connecting_conns_ s))
              (set_conns (conns_ s ++ [conn]) s) in
  match type_ s with
  | kConsumer => Ok (Subscribe conn (topic_ s) (channel_ s) s2)
  | kProducer =>
      let s3 := set_status conn kReady s2 in
      Ok (if ready_to_publish_fn_ s then emit (EvReadyToPublish conn) s3 else s3)
  end.
Proof.
  unfold status_of, addr_of, OnConnection, IsConnected, IsReady. intros ->. done.
Qed.

Lemma OnConnection_ready conn s :
  status_of s conn = kReady →
  OnConnection conn s =
  match type_ s with
  | kConsumer =>
      Ok (set_connecting (delete (addr_of s conn) (connecting_conns_ s))
            (set_conns (conns_ s ++ [conn]) s))
  | kProducer => Crash AssertFailed
  end.
Proof.
  unfold status_of, addr_of, OnConnection, IsConnected, IsReady. intros ->.
  simpl. by destruct (type_ s).
Qed.

Lemma OnConnection_connecting conn s :
  status_of s conn = kConnecting →
  OnConnection conn s = Ok (MoveToConnectingList conn s).
Proof.
  unfold status_of, OnConnection, IsConnected, IsReady, IsConnecting. intros ->. done.
Qed.

Lemma OnConnection_disconnected conn s :
  status_of s conn = kDisconnected →
  OnConnection conn s =
  let s2 := set_connecting (delete (addr_of s conn) (connecting_conns_ s))
              (set_conns (erase_first conn (conns_ s)) s) in
  Ok (QueueInLoop (TaskCheckDisconnected conn)
        (if bool_decide (connecting_conns_ s2 = ∅) && bool_decide (conns_ s2 = [])
         then (if close_fn_ s then emit EvCloseFn s2 else s2)
         else s2)).
Proof.
  unfold status_of, addr_of, OnConnection, IsConnected, IsReady, IsConnecting.
  intros ->. done.
Qed.

Lemma in_conns_active conn s : conn ∈ conns_ s → addr_of s conn ∈ active_addrs s.
Proof. intros H. apply list_elem_of_fmap. eauto. Qed.

End dispatch_facts.

(** C10. A Connecting report from a connection whose address the pool does
    not know: [operator[]] leaves a null entry for the address in
    [connecting_conns_], [conns_] is as it was, and [IsKnownNSQDAddress]
    answers true for the address although neither collection holds a
    connection for it. *)
Theorem Connecting_report_of_unknown_leaves_null_entry (s : Client) (conn : nat) :
  status_of s conn = kConnecting →
  IsKnownNSQDAddress (addr_of s conn) s = false →
  ∃ s', OnConnection conn s = Ok s'
        ∧ connecting_conns_ s' = <[addr_of s conn := None]> (connecting_conns_ s)
        ∧ conns_ s' = conns_ s
        ∧ IsKnownNSQDAddress (addr_of s conn) s' = true
        ∧ connecting_conns_ s' !! addr_of s conn = Some None
        ∧ addr_of s conn ∉ active_addrs s'.
Proof.
  intros Hst [Hnone Hact]%IsKnownNSQDAddress_false.
  rewrite (OnConnection_connecting _ _ Hst).
  assert (conn ∉ conns_ s) as Hnot by (intros H%in_conns_active; done).
  unfold MoveToConnectingList, subscript. rewrite Hnone. simpl.
  rewrite lookup_insert_eq. rewrite decide_False by done.
  eexists; split; [reflexivity|]. simpl. repeat split.
  - apply IsKnownNSQDAddress_true. left. unfold in_connecting; simpl.
    by rewrite lookup_insert_eq.
  - by rewrite lookup_insert_eq.
  - done.
Qed.

Lemma Connecting_report_of_unknown_leaves_null_entry_witness :
  let s := set_status 0 kConnecting
             (mkClient kConsumer "t" "c" false [] ∅ [] false false false
                [mkNSQConn "10.0.0.1:4150" kDisconnected false true] 0%nat [] []) in
  ∃ s', OnConnection 0%nat s = Ok s'
        ∧ connecting_conns_ s' = <["10.0.0.1:4150" := None]> (connecting_conns_ s)
        ∧ conns_ s' = conns_ s
        ∧ IsKnownNSQDAddress "10.0.0.1:4150" s' = true
        ∧ connecting_conns_ s' !! "10.0.0.1:4150" = Some None
        ∧ "10.0.0.1:4150" ∉ active_addrs s'.
Proof.
  intros s.
  apply (Connecting_report_of_unknown_leaves_null_entry s 0%nat);
    vm_compute; reflexivity.
Defined.

(** C5. A Connected report from a connection whose address is in
    [connecting_conns_]: the address leaves [connecting_conns_] and the
    connection is appended to [conns_]. A consumer issues one subscribe
    request for its topic and channel, and nothing else, and the status
    stays Connected, whether or not any callback is set. A producer gets
    status Ready and, its ready-to-publish callback being set, one
    invocation of the callback with that connection, and nothing else. The
    status that the connection had before the report plays no part. *)
Theorem Connected_report_dispatch (s : Client) (conn : nat) (entry : option nat) :
  allocated s conn = true →
  connecting_conns_ s !! addr_of s conn = Some entry →
  ∃ s', Report conn kConnected s = Ok s'
        ∧ connecting_conns_ s' = delete (addr_of s conn) (connecting_conns_ s)
        ∧ conns_ s' = conns_ s ++ [conn]
        ∧ ¬ in_connecting (addr_of s conn) s'
        ∧ in_active (addr_of s conn) s'
        ∧ match type_ s with
          | kConsumer =>
              trace s' = trace s ++ [EvSubscribe conn (topic_ s) (channel_ s)]
              ∧ status_of s' conn = kConnected
          | kProducer =>
              status_of s' conn = kReady
              ∧ (ready_to_publish_fn_ s = true →
                 trace s' = trace s ++ [EvReadyToPublish conn])
          end.
Proof.
  intros Halloc%bool_decide_eq_true Hentry.
  unfold Report.
  rewrite OnConnection_connected by by apply status_of_set_status.
  rewrite addr_of_set_status. simpl.
  assert (∀ s', conns_ s' = conns_ s ++ [conn] →
                (∀ c, addr_of s' c = addr_of s c) →
                in_active (addr_of s conn) s') as Hact.
  { intros s' Hc Ha. unfold in_active, active_addrs. rewrite Hc, fmap_app.
    apply elem_of_app. right. simpl. rewrite Ha. apply list_elem_of_here. }
  assert (¬ is_Some (delete (addr_of s conn) (connecting_conns_ s) !! addr_of s conn))
    as Hgone.
  { rewrite lookup_delete_eq. by intros [? [=]]. }
  destruct (type_ s) eqn:Hty; simpl.
  - assert (∀ s3, heap s3 = heap (set_status conn kReady (set_status conn kConnected s)) →
              (∀ c, addr_of s3 c = addr_of s c) ∧ status_of s3 conn = kReady) as Hheap.
    { intros s3 Hh. split.
      - intros c. rewrite (addr_of_heap _ _ c Hh). by rewrite !addr_of_set_status.
      - rewrite (status_of_heap _ _ conn Hh).
        apply status_of_set_status. simpl. by rewrite length_alter. }
    destruct (ready_to_publish_fn_ s) eqn:Hready;
      (eexists; split; [reflexivity|]; simpl;
       split; [done|]; split; [done|]; split; [exact Hgone|];
       split; [apply Hact; [done|]; by apply Hheap|];
       split; [by apply Hheap|]; done).
  - eexists; split; [reflexivity|]. simpl.
    split; [done|]. split; [done|]. split; [exact Hgone|].
    split.
    { apply Hact; [done|]. intros c.
      rewrite (addr_of_heap _ (set_status conn kConnected s)) by done.
      by rewrite addr_of_set_status. }
    split; [done|].
    rewrite (status_of_heap _ (set_status conn kConnected s)) by done.
    by apply status_of_set_status.
Qed.

Lemma Connected_report_dispatch_witness :
  let p := ConnectToNSQD "10.0.0.1:4150" (new_Client kProducer "" "" true true true) in
  let c := ConnectToNSQD "10.0.0.1:4150" (new_Client kConsumer "t" "ch" true false true) in
  (∃ p', Report 0%nat kConnected p = Ok p'
         ∧ connecting_conns_ p' = delete "10.0.0.1:4150" (connecting_conns_ p)
         ∧ conns_ p' = [0%nat]
         ∧ ¬ in_connecting "10.0.0.1:4150" p'
         ∧ in_active "10.0.0.1:4150" p'
         ∧ status_of p' 0%nat = kReady
         ∧ (ready_to_publish_fn_ p = true →
            trace p' = trace p ++ [EvReadyToPublish 0%nat]))
  ∧ (∃ c', Report 0%nat kConnected c = Ok c'
           ∧ connecting_conns_ c' = delete "10.0.0.1:4150" (connecting_conns_ c)
           ∧ conns_ c' = [0%nat]
           ∧ ¬ in_connecting "10.0.0.1:4150" c'
           ∧ in_active "10.0.0.1:4150" c'
           ∧ trace c' = trace c ++ [EvSubscribe 0%nat "t" "ch"]
           ∧ status_of c' 0%nat = kConnected).
Proof.
  intros p c. split.
  - apply (Connected_report_dispatch p 0%nat (Some 0%nat)); vm_compute; reflexivity.
  - apply (Connected_report_dispatch c 0%nat (Some 0%nat)); vm_compute; reflexivity.
Defined.

(** The same report to a consumer. *)
Example Connected_report_consumer :
  let s := ConnectToNSQD "10.0.0.1:4150" (new_Client kConsumer "t" "ch" true false true) in
  ∃ s', Report 0%nat kConnected s = Ok s'
        ∧ conns_ s' = [0%nat] ∧ connecting_conns_ s' = ∅
        ∧ trace s' = [EvConnect 0%nat "10.0.0.1:4150"; EvSubscribe 0%nat "t" "ch"]
        ∧ status_of s' 0%nat = kConnected.
Proof. eexists. split; [vm_compute; reflexivity|]. repeat split; vm_compute; reflexivity. Qed.

(** A Ready report to a consumer appends the connection to [conns_] whether
    or not it is there already. *)
Lemma Ready_report_appends (s : Client) (conn : nat) :
  type_ s = kConsumer → allocated s conn = true →
  ∃ s', Report conn kReady s = Ok s' ∧ conns_ s' = conns_ s ++ [conn].
Proof.
  intros Hty Halloc%bool_decide_eq_true. unfold Report.
  rewrite OnConnection_ready by by apply status_of_set_status.
  simpl. rewrite Hty. eexists; split; reflexivity.
Qed.

(** C8. A consumer's connection that is already in [conns_] reports Ready:
    the handler appends it to [conns_] a second time. When the connection
    later reports Disconnected only the first of the two entries is erased,
    [conns_] never empties and [close_fn_] is not invoked. *)
Theorem Ready_report_duplicates_active_entry :
  let s1 := ConnectToNSQD "10.0.0.1:4150"
              (new_Client kConsumer "topic" "channel" true false true) in
  ∃ s2 s3 s4,
    Report 0%nat kConnected s1 = Ok s2 ∧ conns_ s2 = [0%nat]
    ∧ Report 0%nat kReady s2 = Ok s3 ∧ conns_ s3 = [0%nat; 0%nat]
    ∧ connecting_conns_ s3 = connecting_conns_ s2 ∧ trace s3 = trace s2
    ∧ Report 0%nat kDisconnected s3 = Ok s4 ∧ conns_ s4 = [0%nat]
    ∧ EvCloseFn ∉ trace s4.
Proof.
  do 3 eexists.
  do 8 (split; [vm_compute; reflexivity|]).
  vm_compute. intros H. repeat (apply elem_of_cons in H as [[=]|H]).
  by apply elem_of_nil in H.
Qed.

(** ** The lookupd handler *)

(** Bodies of the shape the directory service documents:
    [{"status_code": 200, "data": {"producers": [{"broadcast_address": h,
    "tcp_port": p}, ...]}}]. *)
Definition producer_record (hp : string * Z) : json :=
  JObject [("broadcast_address", JString hp.1); ("tcp_port", JNumber hp.2)].

Definition lookupd_ok (producers : list (string * Z)) : Response :=
  mkResponse 200
    (JObject [("status_code", JNumber 200);
              ("data", JObject [("producers", JArray (producer_record <$> producers))])]).

Definition nsqd_addr (hp : string * Z) : string :=
  from_c_str hp.1 +:+ ":" +:+ to_string hp.2.

Definition is_int (n : Z) : bool := bool_decide (-2147483648 ≤ n ≤ 2147483647).

Section lookupd_facts.
Implicit Types (s : Client) (hp : string * Z).

Lemma HandleLoopkupdHTTPResponse_http_failure response s :
  http_code response ≠ 200 → HandleLoopkupdHTTPResponse response s = Ok s.
Proof.
  intros H. unfold HandleLoopkupdHTTPResponse. by rewrite bool_decide_eq_true_2.
Qed.

Lemma HandleLoopkupdHTTPResponse_status_failure code doc v s :
  member "status_code" doc = Ok (JNumber v) → is_int v = true → v ≠ 200 →
  HandleLoopkupdHTTPResponse (mkResponse code doc) s = Ok s.
Proof.
  intros Hm Hint Hv. unfold HandleLoopkupdHTTPResponse; simpl.
  case_bool_decide; [done|]. rewrite Hm; simpl.
  unfold is_int in Hint. rewrite Hint; simpl. by rewrite bool_decide_eq_true_2.
Qed.

Lemma HandleLoopkupdHTTPResponse_ok producers s :
  HandleLoopkupdHTTPResponse (lookupd_ok producers) s =
  connect_producers (producer_record <$> producers) s.
Proof. reflexivity. Qed.

Lemma connect_producer_record hp s :
  is_int hp.2 = true →
  connect_producer (producer_record hp) s =
  Ok (if IsKnownNSQDAddress (nsqd_addr hp) s then s else ConnectToNSQD (nsqd_addr hp) s).
Proof.
  intros Hint. unfold connect_producer, producer_record; simpl.
  unfold is_int in Hint. rewrite Hint; simpl.
  fold (nsqd_addr hp). by destruct (IsKnownNSQDAddress _ s).
Qed.

Lemma connect_producers_all_known (producers : list (string * Z)) s :
  forallb (λ hp, is_int hp.2 && IsKnownNSQDAddress (nsqd_addr hp) s) producers = true →
  connect_producers (producer_record <$> producers) s = Ok s.
Proof.
  induction producers as [|hp l IH]; simpl; [done|].
  intros [[Hint Hk]%andb_prop Hl]%andb_prop.
  rewrite connect_producer_record, Hk by done. simpl. auto.
Qed.

End lookupd_facts.

(** The host of a record is read as a C string: what follows a NUL in the
    JSON string is not part of the address. *)
Example broadcast_address_is_read_as_c_string :
  HandleLoopkupdHTTPResponse
    (lookupd_ok [("10.0.0.1" +:+ String Ascii.zero "rest", 4150)])
    (new_Client kConsumer "t" "c" true false true)
  = Ok (ConnectToNSQD "10.0.0.1:4150" (new_Client kConsumer "t" "c" true false true)).
Proof. vm_compute; reflexivity. Qed.

(** C6. A response with HTTP status 200 whose body is not the documented
    envelope: the handler applies the rapidjson accessors unchecked, and an
    accessor's assertion fails. Shown for a body that is not JSON (a
    null document), an object without [status_code], a [status_code] that is
    not an integer, and a successful status without [data]. *)
Theorem malformed_lookupd_response_crashes (s : Client) :
  HandleLoopkupdHTTPResponse (mkResponse 200 JNull) s = Crash JsonAssert
  ∧ HandleLoopkupdHTTPResponse (mkResponse 200 (JObject [])) s = Crash JsonAssert
  ∧ HandleLoopkupdHTTPResponse
      (mkResponse 200 (JObject [("status_code", JString "200")])) s = Crash JsonAssert
  ∧ HandleLoopkupdHTTPResponse
      (mkResponse 200 (JObject [("status_code", JNumber 200)])) s = Crash JsonAssert
  ∧ HandleLoopkupdHTTPResponse
      (mkResponse 200
         (JObject [("status_code", JNumber 200);
                   ("data", JObject [("producers", JArray [JObject []])])])) s
    = Crash JsonAssert.
Proof. repeat split; reflexivity. Qed.

(** The two failures that the handler does check for leave the client as it
    was. *)
Lemma failed_poll_is_ignored (s : Client) (code v : Z) (doc : json) :
  (code ≠ 200 → HandleLoopkupdHTTPResponse (mkResponse code doc) s = Ok s)
  ∧ (member "status_code" doc = Ok (JNumber v) → is_int v = true → v ≠ 200 →
     HandleLoopkupdHTTPResponse (mkResponse code doc) s = Ok s).
Proof.
  split.
  - intros H. by apply HandleLoopkupdHTTPResponse_http_failure.
  - apply HandleLoopkupdHTTPResponse_status_failure.
Qed.

(** C1, as the code has it. The check for known addresses is made by the
    lookupd handler, not by [ConnectToNSQD]: a response all of whose
    producers are known leaves the client exactly as it was, while
    [ConnectToNSQD] always allocates a connection, stores it under the
    address (replacing what was there) and asks it to connect. *)
Theorem discovery_skips_known_addresses (s : Client) (producers : list (string * Z)) :
  forallb (λ hp, is_int hp.2 && IsKnownNSQDAddress (nsqd_addr hp) s) producers = true →
  HandleLoopkupdHTTPResponse (lookupd_ok producers) s = Ok s
  ∧ ∀ addr,
      heap (ConnectToNSQD addr s)
        = heap s ++ [mkNSQConn addr kConnecting (msg_fn_ s) true]
      ∧ connecting_conns_ (ConnectToNSQD addr s)
        = <[addr := Some (length (heap s))]> (connecting_conns_ s)
      ∧ conns_ (ConnectToNSQD addr s) = conns_ s
      ∧ trace (ConnectToNSQD addr s) = trace s ++ [EvConnect (length (heap s)) addr].
Proof.
  intros Hall. split.
  - rewrite HandleLoopkupdHTTPResponse_ok. by apply connect_producers_all_known.
  - intros addr. by rewrite ConnectToNSQD_eq.
Qed.

Lemma discovery_skips_known_addresses_witness :
  let s := ConnectToNSQD "10.0.0.2:4150"
             (ConnectToNSQD "10.0.0.1:4150" (new_Client kConsumer "t" "c" true false true)) in
  HandleLoopkupdHTTPResponse (lookupd_ok [("10.0.0.1", 4150); ("10.0.0.2", 4150)]) s = Ok s
  ∧ ∀ addr,
      heap (ConnectToNSQD addr s)
        = heap s ++ [mkNSQConn addr kConnecting (msg_fn_ s) true]
      ∧ connecting_conns_ (ConnectToNSQD addr s)
        = <[addr := Some (length (heap s))]> (connecting_conns_ s)
      ∧ conns_ (ConnectToNSQD addr s) = conns_ s
      ∧ trace (ConnectToNSQD addr s) = trace s ++ [EvConnect (length (heap s)) addr].
Proof.
  intros s.
  apply (discovery_skips_known_addresses s [("10.0.0.1", 4150); ("10.0.0.2", 4150)]).
  vm_compute; reflexivity.
Defined.

(** C1 as stated fails: [ConnectToNSQD] for an address that is already in
    [connecting_conns_] allocates a second connection, replaces the entry
    and initiates a second connect. *)
Lemma ConnectToNSQD_known_address_connects_again :
  let s := ConnectToNSQD "10.0.0.1:4150" (new_Client kProducer "" "" true true true) in
  IsKnownNSQDAddress "10.0.0.1:4150" s = true
  ∧ ConnectToNSQD "10.0.0.1:4150" s ≠ s
  ∧ length (heap s) = 1%nat
  ∧ length (heap (ConnectToNSQD "10.0.0.1:4150" s)) = 2%nat
  ∧ connecting_conns_ s !! "10.0.0.1:4150" = Some (Some 0%nat)
  ∧ connecting_conns_ (ConnectToNSQD "10.0.0.1:4150" s) !! "10.0.0.1:4150"
      = Some (Some 1%nat)
  ∧ trace (ConnectToNSQD "10.0.0.1:4150" s)
      = [EvConnect 0%nat "10.0.0.1:4150"; EvConnect 1%nat "10.0.0.1:4150"].
Proof.
  intros s. repeat split; try (vm_compute; reflexivity).
  intros H. apply (f_equal (λ x, length (heap x))) in H. vm_compute in H. discriminate.
Qed.

(** C4, as the code has it. [closing_] is set by [Close] and consulted
    nowhere. With [closing_] set, [ConnectToNSQD] still allocates a
    connection, stores it in [connecting_conns_] and asks it to connect, and
    the lookupd handler still connects to a producer it does not know. What
    ends the periodic polling is the teardown functor: it cancels every
    timer and clears the timer list, unless [connecting_conns_] holds a null
    entry, which the functor dereferences before it comes to the timers. *)
Theorem closing_does_not_gate_connects (s : Client) (addr : string) (hp : string * Z) :
  closing_ s = true →
  is_int hp.2 = true →
  IsKnownNSQDAddress (nsqd_addr hp) s = false →
  (connecting_conns_ (ConnectToNSQD addr s) !! addr = Some (Some (length (heap s)))
   ∧ trace (ConnectToNSQD addr s) = trace s ++ [EvConnect (length (heap s)) addr]
   ∧ closing_ (ConnectToNSQD addr s) = true)
  ∧ HandleLoopkupdHTTPResponse (lookupd_ok [hp]) s = Ok (ConnectToNSQD (nsqd_addr hp) s)
  ∧ RunTask TaskClose s =
      if forallb non_null (map_to_list (connecting_conns_ s))
      then Ok (set_timers [] (next_timer s)
                 (set_trace (trace s ++ (EvConnClose <$> pool_conns s)
                                     ++ (EvTimerCancel <$> lookupd_timers_ s)) s))
      else Crash NullDeref.
Proof.
  intros Hcl Hint Hk. split; [|split].
  - rewrite ConnectToNSQD_eq. simpl. by rewrite lookup_insert_eq.
  - rewrite HandleLoopkupdHTTPResponse_ok. simpl.
    by rewrite connect_producer_record, Hk.
  - simpl. apply CloseTask_eq.
Qed.

Lemma closing_does_not_gate_connects_witness :
  let s := Close (ConnectToLookupd "http://127.0.0.1:4161/lookup?topic=test"
                    (new_Client kConsumer "test" "ch" true false true)) in
  (connecting_conns_ (ConnectToNSQD "10.0.0.1:4150" s) !! "10.0.0.1:4150"
     = Some (Some (length (heap s)))
   ∧ trace (ConnectToNSQD "10.0.0.1:4150" s)
     = trace s ++ [EvConnect (length (heap s)) "10.0.0.1:4150"]
   ∧ closing_ (ConnectToNSQD "10.0.0.1:4150" s) = true)
  ∧ HandleLoopkupdHTTPResponse (lookupd_ok [("10.0.0.2", 4150)]) s
    = Ok (ConnectToNSQD "10.0.0.2:4150" s)
  ∧ RunTask TaskClose s =
      if forallb non_null (map_to_list (connecting_conns_ s))
      then Ok (set_timers [] (next_timer s)
                 (set_trace (trace s ++ (EvConnClose <$> pool_conns s)
                                     ++ (EvTimerCancel <$> lookupd_timers_ s)) s))
      else Crash NullDeref.
Proof.
  intros s.
  apply (closing_does_not_gate_connects s "10.0.0.1:4150" ("10.0.0.2", 4150));
    vm_compute; reflexivity.
Defined.

(** C4 as stated fails: after [Close()], and even after the teardown functor
    has run, a direct [ConnectToNSQD] and a lookupd response each start a new
    connection. *)
Lemma connects_after_Close :
  let s := Close (new_Client kConsumer "test" "ch" true false true) in
  closing_ s = true
  ∧ connecting_conns_ (ConnectToNSQD "10.0.0.1:4150" s) !! "10.0.0.1:4150"
    = Some (Some 0%nat)
  ∧ trace (ConnectToNSQD "10.0.0.1:4150" s) = [EvConnect 0%nat "10.0.0.1:4150"]
  ∧ ∃ s1 s2,
      RunPending s = Ok s1
      ∧ closing_ s1 = true
      ∧ HandleLoopkupdHTTPResponse (lookupd_ok [("10.0.0.2", 4150)]) s1 = Ok s2
      ∧ connecting_conns_ s2 !! "10.0.0.2:4150" = Some (Some 0%nat)
      ∧ trace s2 = [EvConnect 0%nat "10.0.0.2:4150"].
Proof.
  intros s. repeat split; try (vm_compute; reflexivity).
  do 2 eexists. do 4 (split; [vm_compute; reflexivity|]). vm_compute; reflexivity.
Qed.

(** ** Well-formed pools *)

Definition addr_in (h : list NSQConn) (c : nat) : string :=
  remote_addr (default fresh_NSQConn (h !! c)).

(** What [pool_ok] checks, as a proposition over the three components that
    matter: the objects, [conns_] and [connecting_conns_]. *)
Record inv_on (nulls : bool) (h : list NSQConn) (cs : list nat)
    (m : gmap string (option nat)) : Prop := mk_inv_on {
  inv_alloc : ∀ c, c ∈ cs → (c < length h)%nat;
  inv_nodup : NoDup (addr_in h <$> cs);
  inv_entry : ∀ a c, m !! a = Some (Some c) → (c < length h)%nat ∧ addr_in h c = a;
  inv_null : ∀ a, m !! a = Some None → nulls = true;
  inv_disjoint : ∀ a, is_Some (m !! a) → a ∉ addr_in h <$> cs
}.

Definition pool_inv (nulls : bool) (s : Client) : Prop :=
  inv_on nulls (heap s) (conns_ s) (connecting_conns_ s).

Section erase_facts.
Implicit Types (c : nat) (l : list nat).

Lemma erase_first_sublist c l : erase_first c l `sublist_of` l.
Proof.
  induction l as [|x l IH]; simpl; [done|].
  case_decide; [by apply sublist_cons | by apply sublist_skip].
Qed.

Lemma erase_first_notin c l : c ∉ l → erase_first c l = l.
Proof.
  induction l as [|x l IH]; simpl; [done|].
  intros [Hne Hl]%not_elem_of_cons. rewrite decide_False by done. by rewrite IH.
Qed.


Lemma erase_first_fmap_notin {B} (g : nat → B) c l :
  NoDup (g <$> l) → c ∈ l → g c ∉ g <$> erase_first c l.
Proof.
  induction l as [|x l IH]; simpl; [by intros _ ?%elem_of_nil|].
  intros [Hx Hl]%NoDup_cons Hin. case_decide as Hxc.
  - by subst x.
  - apply elem_of_cons in Hin as [->|Hin]; [done|].
    rewrite fmap_cons. apply not_elem_of_cons. split; [|by apply IH].
    intros Heq. apply Hx. rewrite <- Heq. apply list_elem_of_fmap. eauto.
Qed.

End erase_facts.

Section inv_facts.
Implicit Types (s : Client) (h : list NSQConn) (cs : list nat)
  (m : gmap string (option nat)) (c : nat) (a : string).

Lemma exclusive_of_inv nulls s : pool_inv nulls s → exclusive s.
Proof.
  intros Hinv a [Hc Ha]. by apply (inv_disjoint _ _ _ _ Hinv a).
Qed.

Lemma pool_ok_inv nulls s : pool_ok nulls s = true → pool_inv nulls s.
Proof.
  unfold pool_ok. intros [[Ha Hn%bool_decide_eq_true]%andb_prop He]%andb_prop.
  rewrite forallb_forall in Ha. rewrite forallb_forall in He.
  assert (∀ a oc, connecting_conns_ s !! a = Some oc →
            entry_ok nulls s (a, oc) = true) as He'.
  { intros a oc Hl. apply He, list_elem_of_In. by apply elem_of_map_to_list. }
  split.
  - intros c Hc%list_elem_of_In. by apply Ha, bool_decide_eq_true in Hc.
  - done.
  - intros a c Hl. apply He' in Hl. unfold entry_ok in Hl; simpl in Hl.
    apply andb_prop in Hl as [[H1%bool_decide_eq_true H2%bool_decide_eq_true]%andb_prop _].
    done.
  - intros a Hl. apply He' in Hl. unfold entry_ok in Hl; simpl in Hl.
    by apply andb_prop in Hl as [? _].
  - intros a [oc Hl]. apply He' in Hl. unfold entry_ok in Hl; simpl in Hl.
    by apply andb_prop in Hl as [_ ?%bool_decide_eq_true].
Qed.

Lemma inv_new nulls t topic channel msg ready close :
  pool_inv nulls (new_Client t topic channel msg ready close).
Proof.
  split; simpl.
  - by intros c ?%elem_of_nil.
  - constructor.
  - intros a c. by rewrite lookup_empty.
  - intros a. by rewrite lookup_empty.
  - intros a _. apply not_elem_of_nil.
Qed.

(** Only the addresses and the number of the objects matter. *)
Lemma inv_on_heap nulls h h' cs m :
  length h' = length h → (∀ c, addr_in h' c = addr_in h c) →
  inv_on nulls h cs m → inv_on nulls h' cs m.
Proof.
  intros Hlen Haddr [H1 H2 H3 H4 H5].
  assert (addr_in h' <$> cs = addr_in h <$> cs) as Heq.
  { apply list_fmap_ext. intros _ c _. apply Haddr. }
  split; rewrite ?Heq, ?Hlen; try done.
  intros a c Hl. rewrite Haddr. by apply H3.
Qed.

Lemma addr_in_alter h c c' (f : NSQConn → NSQConn) :
  (∀ o, remote_addr (f o) = remote_addr o) →
  addr_in (alter f c h) c' = addr_in h c'.
Proof.
  intros Hf. unfold addr_in. destruct (decide (c = c')) as [->|Hne].
  - rewrite list_lookup_alter_eq. destruct (h !! c'); simpl; auto.
  - by rewrite list_lookup_alter_ne.
Qed.

Lemma inv_on_set_status nulls h cs m c st :
  inv_on nulls h cs m →
  inv_on nulls (alter (λ o, mkNSQConn (remote_addr o) st (msg_fn o) (conn_fn o)) c h) cs m.
Proof.
  apply inv_on_heap; [apply length_alter|].
  intros c'. by apply addr_in_alter.
Qed.

(** A connect to an address that is not known. *)
Lemma inv_on_connect nulls h cs m a o :
  remote_addr o = a → m !! a = None → a ∉ addr_in h <$> cs →
  inv_on nulls h cs m →
  inv_on nulls (h ++ [o]) cs (<[a := Some (length h)]> m).
Proof.
  intros Ho Hnone Hact [H1 H2 H3 H4 H5].
  assert (∀ c, (c < length h)%nat → addr_in (h ++ [o]) c = addr_in h c) as Hold.
  { intros c Hc. unfold addr_in. by rewrite lookup_app_l. }
  assert (addr_in (h ++ [o]) <$> cs = addr_in h <$> cs) as Heq.
  { apply list_fmap_ext. intros _ c Hc%list_elem_of_lookup_2. by apply Hold, H1. }
  split; rewrite ?Heq, ?length_app; simpl.
  - intros c Hc%H1. lia.
  - done.
  - intros a' c [[<- [= <-]]|[Hne Hl]]%lookup_insert_Some.
    + split; [lia|]. unfold addr_in.
      rewrite lookup_app_r, Nat.sub_diag by lia. done.
    + apply H3 in Hl as [Hlt <-]. split; [lia | by apply Hold].
  - intros a' [[_ [=]]|[_ Hl]]%lookup_insert_Some. by apply (H4 a').
  - intros a' [<-|[_ Hs]]%lookup_insert_is_Some; [done | by apply H5].
Qed.

(** A connection leaves [connecting_conns_] for [conns_]. *)
Lemma inv_on_promote nulls h cs m c :
  (c < length h)%nat → is_Some (m !! addr_in h c) →
  inv_on nulls h cs m →
  inv_on nulls h (cs ++ [c]) (delete (addr_in h c) m).
Proof.
  intros Hc Hin [H1 H2 H3 H4 H5]. split.
  - intros c' [?|Hs%list_elem_of_singleton]%elem_of_app; subst; auto.
  - rewrite fmap_app. apply NoDup_app. split; [done|]. split.
    + intros a Ha Hs%list_elem_of_singleton. subst a. by apply (H5 _ Hin).
    + apply NoDup_singleton.
  - intros a c' [_ Hl]%lookup_delete_Some. by apply H3.
  - intros a [_ Hl]%lookup_delete_Some. by apply (H4 a).
  - intros a [Hne Hs]%lookup_delete_is_Some. rewrite fmap_app.
    apply not_elem_of_app. split; [by apply H5|].
    intros Heq%list_elem_of_singleton. by subst a.
Qed.

(** A connection is dropped from both collections. *)
Lemma inv_on_remove nulls h cs m c a :
  inv_on nulls h cs m →
  inv_on nulls h (erase_first c cs) (delete a m).
Proof.
  intros [H1 H2 H3 H4 H5].
  pose proof (erase_first_sublist c cs) as Hsub. split.
  - intros c' Hc'. apply H1. by eapply elem_of_sublist.
  - eapply sublist_NoDup; [done|]. by apply fmap_sublist.
  - intros a' c' [_ Hl]%lookup_delete_Some. by apply H3.
  - intros a' [_ Hl]%lookup_delete_Some. by apply (H4 a').
  - intros a' [_ Hs]%lookup_delete_is_Some Hin. apply (H5 a' Hs).
    eapply elem_of_sublist; [done|]. by apply fmap_sublist.
Qed.

End inv_facts.

Section step_facts.
Implicit Types (s : Client) (c : nat).

(** A connection falls back from [conns_] to [connecting_conns_]. *)
Lemma inv_on_demote nulls h cs m c :
  c ∈ cs → m !! addr_in h c = None →
  inv_on nulls h cs m →
  inv_on nulls h (erase_first c cs) (<[addr_in h c := Some c]> m).
Proof.
  intros Hc Hnone [H1 H2 H3 H4 H5].
  pose proof (erase_first_sublist c cs) as Hsub. split.
  - intros c' Hc'. apply H1. by eapply elem_of_sublist.
  - eapply sublist_NoDup; [done|]. by apply fmap_sublist.
  - intros a c' [[<- [= <-]]|[_ Hl]]%lookup_insert_Some; [auto | by apply H3].
  - intros a [[_ [=]]|[_ Hl]]%lookup_insert_Some. by apply (H4 a).
  - intros a [<-|[_ Hs]]%lookup_insert_is_Some.
    + by apply erase_first_fmap_notin.
    + intros Hin. apply (H5 a Hs).
      eapply elem_of_sublist; [done|]. by apply fmap_sublist.
Qed.

(** [operator[]] has left a null entry for an address that no active
    connection has. *)
Lemma inv_on_null_entry h cs m a :
  m !! a = None → a ∉ addr_in h <$> cs →
  inv_on true h cs m → inv_on true h cs (<[a := None]> m).
Proof.
  intros Hnone Ha [H1 H2 H3 H4 H5]. split; try done.
  - intros a' c' [[_ [=]]|[_ Hl]]%lookup_insert_Some. by apply H3.
  - intros a' [<-|[_ Hs]]%lookup_insert_is_Some; [done | by apply H5].
Qed.

Lemma MoveToConnectingList_inv s c :
  c ∈ conns_ s ∨ addr_of s c ∉ active_addrs s →
  pool_inv true s → pool_inv true (MoveToConnectingList c s).
Proof.
  destruct s as [ty tp ch cl cs m tm mf rf cf h nt q tr].
  unfold pool_inv, MoveToConnectingList, subscript, active_addrs, addr_of, deref.
  simpl. fold (addr_in h c). fold (addr_in h).
  intros Hguard Hinv.
  destruct (m !! addr_in h c) as [[c'|]|] eqn:Hl; simpl.
  - rewrite Hl. done.
  - rewrite Hl. case_decide as Hc; simpl; [|done].
    exfalso. apply (inv_disjoint _ _ _ _ Hinv (addr_in h c)); [by rewrite Hl|].
    apply list_elem_of_fmap. eauto.
  - rewrite lookup_insert_eq. case_decide as Hc; simpl.
    + rewrite insert_insert_eq. by apply inv_on_demote.
    + destruct Hguard as [?|Ha]; [done|]. by apply inv_on_null_entry.
Qed.

Lemma ConnectToNSQD_inv nulls addr s :
  IsKnownNSQDAddress addr s = false →
  pool_inv nulls s → pool_inv nulls (ConnectToNSQD addr s).
Proof.
  intros [Hnone Hact]%IsKnownNSQDAddress_false Hinv.
  rewrite ConnectToNSQD_eq. unfold pool_inv; simpl.
  by apply inv_on_connect.
Qed.

Lemma connect_producers_inv nulls producers s s' :
  connect_producers producers s = Ok s' →
  pool_inv nulls s → pool_inv nulls s'.
Proof.
  revert s. induction producers as [|p l IH]; intros s; simpl.
  - by intros [= <-].
  - unfold connect_producer at 1.
    destruct (member "broadcast_address" p) as [v1|]; simpl; [|done].
    destruct (GetString v1) as [ba|]; simpl; [|done].
    destruct (member "tcp_port" p) as [v2|]; simpl; [|done].
    destruct (GetInt v2) as [port|]; simpl; [|done].
    destruct (IsKnownNSQDAddress _ s) eqn:Hk; simpl; intros Hrun Hinv.
    + by apply (IH s).
    + apply (IH _ Hrun). by apply ConnectToNSQD_inv.
Qed.

Lemma HandleLoopkupdHTTPResponse_inv nulls response s s' :
  HandleLoopkupdHTTPResponse response s = Ok s' →
  pool_inv nulls s → pool_inv nulls s'.
Proof.
  unfold HandleLoopkupdHTTPResponse.
  case_bool_decide; [by intros [= <-]|].
  destruct (member "status_code" (body response)) as [v|]; simpl; [|done].
  destruct (GetInt v) as [code|]; simpl; [|done].
  case_bool_decide; [by intros [= <-]|].
  destruct (member "data" (body response)) as [d|]; simpl; [|done].
  destruct (member "producers" d) as [p|]; simpl; [|done].
  destruct (elements_of p) as [ps|]; simpl; [|done].
  apply connect_producers_inv.
Qed.

Lemma RunPending_inv nulls s s' :
  RunPending s = Ok s' → pool_inv nulls s → pool_inv nulls s'.
Proof.
  unfold RunPending. destruct (pending s) as [|[|c] q]; simpl.
  - by intros [= <-].
  - rewrite CloseTask_eq. simpl.
    destruct (forallb non_null _); [|done]. by intros [= <-].
  - unfold CheckDisconnectedTask.
    destruct (assert _) as [[]|]; simpl; [|done]. by intros [= <-].
Qed.

Lemma Report_inv s c st s' :
  orderly s (OpReport c st) = true →
  Report c st s = Ok s' → pool_inv true s → pool_inv true s'.
Proof.
  unfold orderly. intros [Halloc%bool_decide_eq_true Hguard]%andb_prop Hrun Hinv.
  unfold Report in Hrun.
  assert (pool_inv true (set_status c st s)) as Hinv0
    by by apply inv_on_set_status.
  pose proof (status_of_set_status s c st Halloc) as Hst.
  destruct st.
  - (* Disconnected *)
    rewrite OnConnection_disconnected in Hrun by done.
    injection Hrun as <-. unfold pool_inv.
    match goal with |- context [if ?b then _ else _] => destruct b end;
      [destruct (close_fn_ _)|]; simpl; by apply inv_on_remove.
  - (* Connecting *)
    rewrite OnConnection_connecting in Hrun by done.
    injection Hrun as <-. apply MoveToConnectingList_inv; [|done].
    rewrite addr_of_set_status, active_addrs_set_status. simpl.
    apply orb_prop in Hguard as [?%bool_decide_eq_true|?%bool_decide_eq_true]; auto.
  - (* Connected *)
    apply bool_decide_eq_true in Hguard.
    rewrite OnConnection_connected in Hrun by done.
    rewrite addr_of_set_status in Hrun. simpl in Hrun.
    assert (inv_on true (heap (set_status c kConnected s)) (conns_ s ++ [c])
              (delete (addr_of s c) (connecting_conns_ s))) as Hup.
    { rewrite <- (addr_of_set_status s c kConnected c).
      apply inv_on_promote; [simpl; by rewrite length_alter | | done].
      change (is_Some (connecting_conns_ s !! addr_of (set_status c kConnected s) c)).
      by rewrite addr_of_set_status. }
    destruct (type_ s); injection Hrun as <-.
    + destruct (ready_to_publish_fn_ s); unfold pool_inv; simpl;
        by apply inv_on_set_status.
    + done.
  - (* Ready *)
    apply bool_decide_eq_true in Hguard.
    rewrite OnConnection_ready in Hrun by done.
    rewrite addr_of_set_status in Hrun. simpl in Hrun.
    destruct (type_ s); [done|]. injection Hrun as <-.
    unfold pool_inv; simpl.
    rewrite <- (addr_of_set_status s c kReady c).
    apply inv_on_promote; [simpl; by rewrite length_alter | | done].
    change (is_Some (connecting_conns_ s !! addr_of (set_status c kReady s) c)).
    by rewrite addr_of_set_status.
Qed.

(** Every orderly operation keeps the pool well formed. *)
Lemma apply_op_inv s op s' :
  orderly s op = true → apply_op op s = Ok s' →
  pool_inv true s → pool_inv true s'.
Proof.
  destruct op as [addr|url|response|c st| |]; simpl.
  - intros Hk%negb_true_iff [= <-]. by apply ConnectToNSQD_inv.
  - by intros _ [= <-].
  - intros _. apply HandleLoopkupdHTTPResponse_inv.
  - apply Report_inv.
  - by intros _ [= <-].
  - intros _. apply RunPending_inv.
Qed.

Lemma reach_orderly_inv s : reach orderly s → pool_inv true s.
Proof.
  induction 1 as [|s op s' _ IH Hg Hstep]; [apply inv_new|].
  by apply (apply_op_inv s op).
Qed.

End step_facts.

Definition or_else (r : result Client) (d : Client) : Client :=
  match r with
  | Ok s => s
  | Crash _ => d
  end.

(** C2, as the code has it. From a new client, as long as [ConnectToNSQD] is
    only applied to addresses that are not known (the lookupd handler checks
    this itself), Connected and Ready reports come from connections whose
    address is in [connecting_conns_], and Connecting reports come from a
    connection held in [conns_] or for an address that no active connection
    has, no address is in both collections, whatever else happens (lookupd
    responses, Disconnected reports, [Close], queued functors). *)
Theorem orderly_runs_keep_collections_apart (s : Client) :
  reach orderly s → exclusive s.
Proof.
  intros Hreach. apply (exclusive_of_inv true). by apply reach_orderly_inv.
Qed.

Lemma orderly_runs_keep_collections_apart_witness :
  let s0 := new_Client kProducer "" "" true true true in
  let s1 := ConnectToNSQD "10.0.0.1:4150" s0 in
  let s2 := or_else (Report 0%nat kConnected s1) s1 in
  let s3 := ConnectToNSQD "10.0.0.2:4150" s2 in
  let s4 := or_else (Report 0%nat kConnecting s3) s3 in
  exclusive s4.
Proof.
  intros s0 s1 s2 s3 s4.
  apply (orderly_runs_keep_collections_apart s4).
  apply (reach_step orderly s3 (OpReport 0%nat kConnecting));
    [|vm_compute; reflexivity|vm_compute; reflexivity].
  apply (reach_step orderly s2 (OpConnectToNSQD "10.0.0.2:4150"));
    [|vm_compute; reflexivity|vm_compute; reflexivity].
  apply (reach_step orderly s1 (OpReport 0%nat kConnected));
    [|vm_compute; reflexivity|vm_compute; reflexivity].
  apply (reach_step orderly s0 (OpConnectToNSQD "10.0.0.1:4150"));
    [|vm_compute; reflexivity|vm_compute; reflexivity].
  apply reach_new.
Defined.

(** C2 as stated fails: a direct [ConnectToNSQD] to the address of an active
    connection puts the address into [connecting_conns_] as well. *)
Lemma direct_connect_to_active_address_breaks_exclusion :
  let s0 := new_Client kProducer "" "" true true true in
  let s1 := ConnectToNSQD "10.0.0.1:4150" s0 in
  let s2 := or_else (Report 0%nat kConnected s1) s1 in
  let s3 := ConnectToNSQD "10.0.0.1:4150" s2 in
  reach any_op s3
  ∧ in_connecting "10.0.0.1:4150" s3
  ∧ in_active "10.0.0.1:4150" s3
  ∧ ¬ exclusive s3.
Proof.
  intros s0 s1 s2 s3.
  assert (in_connecting "10.0.0.1:4150" s3) as Hc.
  { apply (bool_decide_unpack _). vm_compute. exact I. }
  assert (in_active "10.0.0.1:4150" s3) as Ha.
  { unfold in_active. apply (bool_decide_unpack _). vm_compute. exact I. }
  split; [|split; [done|split; [done|]]].
  - apply (reach_step any_op s2 (OpConnectToNSQD "10.0.0.1:4150"));
      [|reflexivity|vm_compute; reflexivity].
    apply (reach_step any_op s1 (OpReport 0%nat kConnected));
      [|reflexivity|vm_compute; reflexivity].
    apply (reach_step any_op s0 (OpConnectToNSQD "10.0.0.1:4150"));
      [|reflexivity|vm_compute; reflexivity].
    apply reach_new.
  - intros Hex. by apply (Hex "10.0.0.1:4150").
Qed.

(** The same failure without any direct connect to a known address: the
    duplicate entry that a consumer's Ready report leaves in [conns_]
    survives the demotion of the connection on a Connecting report. *)
Example Ready_then_Connecting_breaks_exclusion :
  let s0 := new_Client kConsumer "t" "c" true false true in
  let s1 := ConnectToNSQD "10.0.0.1:4150" s0 in
  let s2 := or_else (Report 0%nat kConnected s1) s1 in
  let s3 := or_else (Report 0%nat kReady s2) s2 in
  let s4 := or_else (Report 0%nat kConnecting s3) s3 in
  conns_ s4 = [0%nat]
  ∧ connecting_conns_ s4 !! "10.0.0.1:4150" = Some (Some 0%nat)
  ∧ ¬ exclusive s4.
Proof.
  intros s0 s1 s2 s3 s4.
  split; [vm_compute; reflexivity|]. split; [vm_compute; reflexivity|].
  intros Hex. apply (Hex "10.0.0.1:4150"). split.
  - apply (bool_decide_unpack _). vm_compute. exact I.
  - unfold in_active. apply (bool_decide_unpack _). vm_compute. exact I.
Qed.

(** ** Draining the pool *)

Section drain_facts.
Implicit Types (s : Client) (h : list NSQConn) (cs : list nat)
  (m : gmap string (option nat)) (c : nat).




Lemma connecting_addrs_sublist h (l : list (string * option nat)) :
  (∀ a c, (a, Some c) ∈ l → addr_in h c = a) →
  addr_in h <$> omap snd l `sublist_of` l.*1.
Proof.
  induction l as [|[a [c|]] l IH]; intros Hl; simpl.
  - done.
  - rewrite (Hl a c) by apply list_elem_of_here.
    apply sublist_skip, IH. intros a' c' Hin. apply Hl. by right.
  - apply sublist_cons, IH. intros a' c' Hin. apply Hl. by right.
Qed.

Lemma NoDup_pool_conns nulls s : pool_inv nulls s → NoDup (pool_conns s).
Proof.
  intros Hinv. destruct Hinv as [H1 H2 H3 H4 H5].
  unfold pool_conns. apply NoDup_app. split; [|split].
  - by apply (NoDup_fmap_1 (addr_in (heap s))).
  - intros c Hc Hin.
    assert (c ∈ pool_conns s) as Hp.
    { unfold pool_conns. apply elem_of_app. by right. }
    unfold connecting_ptrs in Hin.
    apply list_elem_of_omap in Hin as ([a oc] & Hin%elem_of_entries_in_key_order & Hs).
    simpl in Hs. subst oc. destruct (H3 a c Hin) as [_ Ha].
    apply (H5 a); [by rewrite Hin|]. rewrite <- Ha.
    apply list_elem_of_fmap. eauto.
  - apply (NoDup_fmap_1 (addr_in (heap s))). unfold connecting_ptrs.
    apply (sublist_NoDup _ ((entries_in_key_order (connecting_conns_ s)).*1)).
    { rewrite entries_in_key_order_perm. apply NoDup_fst_map_to_list. }
    apply connecting_addrs_sublist.
    intros a c Hin%elem_of_entries_in_key_order. by apply H3.
Qed.





End drain_facts.



(** A pool with one active and one connecting connection, drained in the
    order connecting, active. *)
Definition two_conn_pool : Client :=
  let s1 := ConnectToNSQDs ["10.0.0.1:4150"; "10.0.0.2:4150"]
              (new_Client kProducer "" "" true true true) in
  or_else (Report 0%nat kConnected s1) s1.


(** * Further properties of the pool *)

(** ** Discovery *)

(** The step of the handler's loop once the address of a record has been
    read: connect unless the address is known. *)
Definition connect_unknown (addr : string) (s : Client) : Client :=
  if IsKnownNSQDAddress addr s then s else ConnectToNSQD addr s.

(** Every pointer of [conns_] points to an object. *)
Definition conns_allocated (s : Client) : bool := forallb (allocated s) (conns_ s).

(** What a client may gain from a lookupd response: objects at the end of
    the heap, entries of [connecting_conns_] under addresses that had none,
    connect requests at the end of the trace; everything else stays. *)
Record grows (s s' : Client) : Prop := mk_grows {
  grows_conns : conns_ s' = conns_ s;
  grows_connecting : ∀ a, is_Some (connecting_conns_ s !! a) →
                          connecting_conns_ s' !! a = connecting_conns_ s !! a;
  grows_heap : heap s `prefix_of` heap s';
  grows_trace : trace s `prefix_of` trace s';
  grows_closing : closing_ s' = closing_ s;
  grows_timers : lookupd_timers_ s' = lookupd_timers_ s;
  grows_pending : pending s' = pending s
}.

Section discovery_facts.
Implicit Types (s : Client) (hp : string * Z) (a : string).

Lemma conns_allocated_spec s :
  conns_allocated s = true ↔ ∀ c, c ∈ conns_ s → (c < length (heap s))%nat.
Proof.
  unfold conns_allocated, allocated. rewrite forallb_forall. split.
  - intros H c Hc%list_elem_of_In. by apply H, bool_decide_eq_true in Hc.
  - intros H c Hc%list_elem_of_In. by apply bool_decide_eq_true, H.
Qed.

Lemma active_addrs_ConnectToNSQD addr s :
  conns_allocated s = true →
  active_addrs (ConnectToNSQD addr s) = active_addrs s.
Proof.
  rewrite conns_allocated_spec. intros Halloc.
  rewrite ConnectToNSQD_eq. unfold active_addrs; simpl.
  apply list_fmap_ext. intros _ c Hc%list_elem_of_lookup_2.
  unfold addr_of, deref; simpl. rewrite lookup_app_l by by apply Halloc. done.
Qed.

Lemma conns_allocated_ConnectToNSQD addr s :
  conns_allocated s = true → conns_allocated (ConnectToNSQD addr s) = true.
Proof.
  rewrite !conns_allocated_spec. intros Halloc c.
  rewrite ConnectToNSQD_eq; simpl. intros Hc%Halloc. rewrite length_app. lia.
Qed.

Lemma IsKnown_ConnectToNSQD_same addr s :
  IsKnownNSQDAddress addr (ConnectToNSQD addr s) = true.
Proof.
  apply IsKnownNSQDAddress_true. left. unfold in_connecting.
  rewrite ConnectToNSQD_eq; simpl. by rewrite lookup_insert_eq.
Qed.

Lemma IsKnown_ConnectToNSQD_mono a addr s :
  conns_allocated s = true →
  IsKnownNSQDAddress a s = true → IsKnownNSQDAddress a (ConnectToNSQD addr s) = true.
Proof.
  intros Halloc. rewrite !IsKnownNSQDAddress_true.
  unfold in_connecting, in_active. rewrite active_addrs_ConnectToNSQD by done.
  intros [Hc|Ha]; [left|by right].
  rewrite ConnectToNSQD_eq; simpl. apply lookup_insert_is_Some.
  destruct (decide (addr = a)); auto.
Qed.

Lemma connect_unknown_allocated addr s :
  conns_allocated s = true → conns_allocated (connect_unknown addr s) = true.
Proof.
  unfold connect_unknown. destruct (IsKnownNSQDAddress addr s); [done|].
  apply conns_allocated_ConnectToNSQD.
Qed.

Lemma connect_unknown_known addr s :
  IsKnownNSQDAddress addr (connect_unknown addr s) = true.
Proof.
  unfold connect_unknown. destruct (IsKnownNSQDAddress addr s) eqn:Hk; [done|].
  apply IsKnown_ConnectToNSQD_same.
Qed.

Lemma connect_unknown_mono a addr s :
  conns_allocated s = true →
  IsKnownNSQDAddress a s = true → IsKnownNSQDAddress a (connect_unknown addr s) = true.
Proof.
  unfold connect_unknown. destruct (IsKnownNSQDAddress addr s); [done|].
  apply IsKnown_ConnectToNSQD_mono.
Qed.

(** The handler's loop over well-formed records. *)
Lemma connect_producers_records (producers : list (string * Z)) s :
  forallb (λ hp, is_int hp.2) producers = true →
  connect_producers (producer_record <$> producers) s
  = Ok (foldl (λ s hp, connect_unknown (nsqd_addr hp) s) s producers).
Proof.
  revert s. induction producers as [|hp l IH]; intros s; simpl; [done|].
  intros [Hint Hl]%andb_prop. rewrite connect_producer_record by done.
  simpl. by apply IH.
Qed.

Lemma foldl_connect_unknown_allocated (producers : list (string * Z)) s :
  conns_allocated s = true →
  conns_allocated (foldl (λ s hp, connect_unknown (nsqd_addr hp) s) s producers) = true.
Proof.
  revert s. induction producers as [|hp l IH]; intros s Hs; simpl; [done|].
  by apply IH, connect_unknown_allocated.
Qed.

Lemma foldl_connect_unknown_known (producers : list (string * Z)) s a :
  conns_allocated s = true →
  IsKnownNSQDAddress a s = true ∨ a ∈ nsqd_addr <$> producers →
  IsKnownNSQDAddress a (foldl (λ s hp, connect_unknown (nsqd_addr hp) s) s producers)
  = true.
Proof.
  revert s. induction producers as [|hp l IH]; intros s Hs; simpl.
  - intros [?|?%elem_of_nil]; done.
  - intros [Hk|Hin].
    + apply IH; [by apply connect_unknown_allocated|]. left.
      by apply connect_unknown_mono.
    + apply IH; [by apply connect_unknown_allocated|].
      apply elem_of_cons in Hin as [->|Hin]; [left|by right].
      apply connect_unknown_known.
Qed.

Global Instance grows_refl : Reflexive grows.
Proof. intros s. by split. Qed.

Global Instance grows_trans : Transitive grows.
Proof.
  intros s1 s2 s3 [A1 A2 A3 A4 A5 A6 A7] [B1 B2 B3 B4 B5 B6 B7]. split; try congruence.
  - intros a Ha. rewrite <- (A2 a Ha). apply B2. by rewrite (A2 a Ha).
  - by etrans.
  - by etrans.
Qed.

Lemma grows_ConnectToNSQD addr s :
  IsKnownNSQDAddress addr s = false → grows s (ConnectToNSQD addr s).
Proof.
  intros [Hnone _]%IsKnownNSQDAddress_false.
  rewrite ConnectToNSQD_eq. split; simpl; try done.
  - intros a Ha. apply lookup_insert_ne. intros <-. rewrite Hnone in Ha.
    by destruct Ha.
  - by apply prefix_app_r.
  - by apply prefix_app_r.
Qed.

Lemma grows_connect_producers producers s s' :
  connect_producers producers s = Ok s' → grows s s'.
Proof.
  revert s. induction producers as [|p l IH]; intros s; simpl.
  - by intros [= <-].
  - unfold connect_producer at 1.
    destruct (member "broadcast_address" p) as [v1|]; simpl; [|done].
    destruct (GetString v1) as [ba|]; simpl; [|done].
    destruct (member "tcp_port" p) as [v2|]; simpl; [|done].
    destruct (GetInt v2) as [port|]; simpl; [|done].
    destruct (IsKnownNSQDAddress _ s) eqn:Hk; simpl; intros Hrun.
    + by apply IH.
    + etrans; [by apply grows_ConnectToNSQD|]. by apply IH.
Qed.

End discovery_facts.

(** X1. A response whose HTTP status is not 200 leaves the client exactly
    as it was; the body is not looked at, so any body will do. *)
Theorem http_failure_leaves_client_unchanged (response : Response) (s : Client) :
  http_code response ≠ 200 → HandleLoopkupdHTTPResponse response s = Ok s.
Proof. apply HandleLoopkupdHTTPResponse_http_failure. Qed.

Lemma http_failure_leaves_client_unchanged_witness :
  HandleLoopkupdHTTPResponse (mkResponse 503 JNull) two_conn_pool = Ok two_conn_pool.
Proof.
  apply (http_failure_leaves_client_unchanged (mkResponse 503 JNull) two_conn_pool).
  simpl. lia.
Defined.

(** X2. HTTP status 200 with an integer [status_code] other than 200: the
    client is exactly as it was, whatever else the body holds (the producers
    are not read). *)
Theorem status_failure_leaves_client_unchanged (doc : json) (v : Z) (s : Client) :
  member "status_code" doc = Ok (JNumber v) → is_int v = true → v ≠ 200 →
  HandleLoopkupdHTTPResponse (mkResponse 200 doc) s = Ok s.
Proof. apply HandleLoopkupdHTTPResponse_status_failure. Qed.

Lemma status_failure_leaves_client_unchanged_witness :
  HandleLoopkupdHTTPResponse
    (mkResponse 200 (JObject [("status_code", JNumber 500);
                              ("data", JString "TOPIC_NOT_FOUND")])) two_conn_pool
  = Ok two_conn_pool.
Proof.
  apply (status_failure_leaves_client_unchanged _ 500 two_conn_pool).
  - vm_compute; reflexivity.
  - vm_compute; reflexivity.
  - lia.
Defined.

(** X3. A successful response in the documented shape is handled without a
    failed assertion, and afterwards every listed address is known to the
    pool, as is every address that was known before. *)
Theorem discovery_makes_listed_addresses_known
    (producers : list (string * Z)) (s : Client) :
  conns_allocated s = true →
  forallb (λ hp, is_int hp.2) producers = true →
  ∃ s', HandleLoopkupdHTTPResponse (lookupd_ok producers) s = Ok s'
        ∧ (∀ hp, hp ∈ producers → IsKnownNSQDAddress (nsqd_addr hp) s' = true)
        ∧ (∀ a, IsKnownNSQDAddress a s = true → IsKnownNSQDAddress a s' = true).
Proof.
  intros Halloc Hint.
  rewrite HandleLoopkupdHTTPResponse_ok, connect_producers_records by done.
  eexists; split; [reflexivity|]. split.
  - intros hp Hin. apply foldl_connect_unknown_known; [done|]. right.
    apply list_elem_of_fmap. eauto.
  - intros a Hk. apply foldl_connect_unknown_known; auto.
Qed.

Lemma discovery_makes_listed_addresses_known_witness :
  ∃ s', HandleLoopkupdHTTPResponse
          (lookupd_ok [("10.0.0.1", 4150); ("10.0.0.3", 4150)]) two_conn_pool = Ok s'
        ∧ (∀ hp, hp ∈ [("10.0.0.1", 4150); ("10.0.0.3", 4150)] →
                 IsKnownNSQDAddress (nsqd_addr hp) s' = true)
        ∧ (∀ a, IsKnownNSQDAddress a two_conn_pool = true →
                IsKnownNSQDAddress a s' = true).
Proof.
  apply (discovery_makes_listed_addresses_known
           [("10.0.0.1", 4150); ("10.0.0.3", 4150)] two_conn_pool);
    vm_compute; reflexivity.
Defined.

(** X4. Handling the same successful response a second time changes
    nothing: every address it lists is known after the first time. *)
Theorem discovery_is_idempotent (producers : list (string * Z)) (s : Client) :
  conns_allocated s = true →
  forallb (λ hp, is_int hp.2) producers = true →
  ∃ s', HandleLoopkupdHTTPResponse (lookupd_ok producers) s = Ok s'
        ∧ HandleLoopkupdHTTPResponse (lookupd_ok producers) s' = Ok s'.
Proof.
  intros Halloc Hint.
  rewrite HandleLoopkupdHTTPResponse_ok, connect_producers_records by done.
  eexists; split; [reflexivity|].
  rewrite HandleLoopkupdHTTPResponse_ok. apply connect_producers_all_known.
  apply forallb_forall. intros hp Hin%list_elem_of_In.
  rewrite forallb_forall in Hint. rewrite (Hint hp) by by apply list_elem_of_In.
  simpl. apply foldl_connect_unknown_known; [done|]. right.
  apply list_elem_of_fmap. eauto.
Qed.

Lemma discovery_is_idempotent_witness :
  ∃ s', HandleLoopkupdHTTPResponse
          (lookupd_ok [("10.0.0.3", 4150); ("10.0.0.3", 4150)]) two_conn_pool = Ok s'
        ∧ HandleLoopkupdHTTPResponse
            (lookupd_ok [("10.0.0.3", 4150); ("10.0.0.3", 4150)]) s' = Ok s'.
Proof.
  apply (discovery_is_idempotent [("10.0.0.3", 4150); ("10.0.0.3", 4150)] two_conn_pool);
    vm_compute; reflexivity.
Defined.

(** X5. Discovery only adds. Whatever the response, if the handler returns
    then [conns_] is what it was, every entry of [connecting_conns_] is kept
    as it was, the objects and the trace have only grown at the end, and
    [closing_], the timers and the loop's queue are untouched. *)
Theorem discovery_never_removes (response : Response) (s s' : Client) :
  HandleLoopkupdHTTPResponse response s = Ok s' → grows s s'.
Proof.
  unfold HandleLoopkupdHTTPResponse.
  case_bool_decide; [by intros [= <-]|].
  destruct (member "status_code" (body response)) as [v|]; simpl; [|done].
  destruct (GetInt v) as [code|]; simpl; [|done].
  case_bool_decide; [by intros [= <-]|].
  destruct (member "data" (body response)) as [d|]; simpl; [|done].
  destruct (member "producers" d) as [p|]; simpl; [|done].
  destruct (elements_of p) as [ps|]; simpl; [|done].
  apply grows_connect_producers.
Qed.

Lemma discovery_never_removes_witness :
  grows two_conn_pool
    (or_else (HandleLoopkupdHTTPResponse (lookupd_ok [("10.0.0.3", 4150)]) two_conn_pool)
       two_conn_pool).
Proof.
  apply (discovery_never_removes (lookupd_ok [("10.0.0.3", 4150)]) two_conn_pool).
  vm_compute; reflexivity.
Defined.

(** ** Bookkeeping *)

Section bookkeeping_facts.
Implicit Types (s : Client) (c : nat).

Lemma set_connecting_id s : set_connecting (connecting_conns_ s) s = s.
Proof. by destruct s. Qed.

Lemma subscript_id addr (m : gmap string (option nat)) :
  is_Some (m !! addr) → subscript addr m = m.
Proof. intros [x Hx]. unfold subscript. by rewrite Hx. Qed.

Lemma MoveToConnectingList_stale s c c' :
  connecting_conns_ s !! addr_of s c = Some (Some c') →
  MoveToConnectingList c s = s.
Proof.
  intros Hl. unfold MoveToConnectingList.
  rewrite subscript_id by by rewrite Hl.
  rewrite set_connecting_id, Hl. done.
Qed.

Lemma MoveToConnectingList_demote s c :
  c ∈ conns_ s →
  (∀ c', connecting_conns_ s !! addr_of s c ≠ Some (Some c')) →
  MoveToConnectingList c s
  = set_conns (erase_first c (conns_ s))
      (set_connecting (<[addr_of s c := Some c]> (connecting_conns_ s)) s).
Proof.
  intros Hc Hl. unfold MoveToConnectingList, subscript.
  destruct (connecting_conns_ s !! addr_of s c) as [[c'|]|] eqn:Heq.
  - by destruct (Hl c').
  - simpl. rewrite Heq. rewrite decide_True by done.
    by rewrite set_connecting_id.
  - simpl. rewrite lookup_insert_eq. rewrite decide_True by done.
    destruct s; simpl. by rewrite insert_insert_eq.
Qed.

Lemma MoveToConnectingList_null s c :
  c ∉ conns_ s →
  (∀ c', connecting_conns_ s !! addr_of s c ≠ Some (Some c')) →
  MoveToConnectingList c s
  = set_connecting (<[addr_of s c := None]> (connecting_conns_ s)) s.
Proof.
  intros Hc Hl. unfold MoveToConnectingList, subscript.
  destruct (connecting_conns_ s !! addr_of s c) as [[c'|]|] eqn:Heq.
  - by destruct (Hl c').
  - simpl. rewrite Heq. rewrite decide_False by done.
    by rewrite insert_id.
  - simpl. rewrite lookup_insert_eq. by rewrite decide_False.
Qed.

Lemma length_erase_first c (l : list nat) :
  length (erase_first c l)
  = (length l - (if bool_decide (c ∈ l) then 1 else 0))%nat.
Proof.
  induction l as [|x l IH]; simpl; [done|].
  destruct (decide (x = c)) as [->|Hx].
  - rewrite bool_decide_eq_true_2 by by left. lia.
  - simpl. rewrite IH. destruct (decide (c ∈ l)) as [Hin|Hin];
      [rewrite (bool_decide_eq_true_2 (c ∈ l)) by done
      |rewrite (bool_decide_eq_false_2 (c ∈ l)) by done].
    + rewrite bool_decide_eq_true_2 by by right.
      destruct l; [by apply elem_of_nil in Hin | simpl; lia].
    + rewrite bool_decide_eq_false_2; [lia|].
      intros [?|?]%elem_of_cons; [congruence | done].
Qed.

Lemma ConnectToNSQDs_keeps_keys (l : list string) s addr :
  is_Some (connecting_conns_ s !! addr) →
  is_Some (connecting_conns_ (ConnectToNSQDs l s) !! addr).
Proof.
  unfold ConnectToNSQDs. revert s. induction l as [|b l IH]; intros s; simpl; [done|].
  intros Hs. apply IH. rewrite ConnectToNSQD_eq; simpl.
  apply lookup_insert_is_Some. destruct (decide (b = addr)); auto.
Qed.

End bookkeeping_facts.

(** X6. [IsKnownNSQDAddress] answers true exactly for the addresses that
    are a key of [connecting_conns_] (whatever the entry holds, a null
    pointer included) or the remote address of a connection in [conns_]. *)
Theorem IsKnownNSQDAddress_characterised (addr : string) (s : Client) :
  IsKnownNSQDAddress addr s = true
  ↔ is_Some (connecting_conns_ s !! addr)
    ∨ ∃ c, c ∈ conns_ s ∧ addr_of s c = addr.
Proof.
  rewrite IsKnownNSQDAddress_true. unfold in_connecting, in_active, active_addrs.
  rewrite list_elem_of_fmap. split.
  - intros [?|(c & -> & Hc)]; [by left | right; eauto].
  - intros [?|(c & Hc & <-)]; [by left | right; eauto].
Qed.

(** X7. After [ConnectToNSQD addr] the entry of [connecting_conns_] under
    [addr] is the newly allocated connection, which has [addr] as remote
    address, status Connecting, the client's message callback and the
    client's connection callback; the address is known, and the objects
    that existed are untouched. *)
Theorem ConnectToNSQD_registers_fresh_connection (addr : string) (s : Client) :
  let s' := ConnectToNSQD addr s in
  let c := length (heap s) in
  connecting_conns_ s' !! addr = Some (Some c)
  ∧ deref s' c = mkNSQConn addr kConnecting (msg_fn_ s) true
  ∧ IsKnownNSQDAddress addr s' = true
  ∧ (∀ c', (c' < c)%nat → deref s' c' = deref s c')
  ∧ (∀ a, a ≠ addr → connecting_conns_ s' !! a = connecting_conns_ s !! a).
Proof.
  intros s' c. subst s' c. repeat split.
  - rewrite ConnectToNSQD_eq; simpl. by rewrite lookup_insert_eq.
  - rewrite ConnectToNSQD_eq. unfold deref; simpl.
    rewrite lookup_app_r, Nat.sub_diag by lia. done.
  - apply IsKnown_ConnectToNSQD_same.
  - intros c' Hc'. rewrite ConnectToNSQD_eq. unfold deref; simpl.
    by rewrite lookup_app_l.
  - intros a Ha. rewrite ConnectToNSQD_eq; simpl. by rewrite lookup_insert_ne.
Qed.

(** X8. [ConnectToNSQDs] asks for one connect per listed address, in the
    order of the list, each on a connection of its own (the objects are
    allocated one after the other); [conns_] is not touched and every listed
    address is a key of [connecting_conns_] afterwards. *)
Theorem ConnectToNSQDs_connects_each (tcp_addrs : list string) (s : Client) :
  let s' := ConnectToNSQDs tcp_addrs s in
  trace s' = trace s ++ imap (λ i addr, EvConnect (length (heap s) + i) addr) tcp_addrs
  ∧ length (heap s') = (length (heap s) + length tcp_addrs)%nat
  ∧ conns_ s' = conns_ s
  ∧ ∀ addr, addr ∈ tcp_addrs → is_Some (connecting_conns_ s' !! addr).
Proof.
  simpl. unfold ConnectToNSQDs. revert s.
  induction tcp_addrs as [|a l IH]; intros s; simpl.
  - rewrite app_nil_r. repeat split; [lia|]. by intros addr ?%elem_of_nil.
  - destruct (IH (ConnectToNSQD a s)) as (Htr & Hlen & Hcs & Hin).
    pose proof (ConnectToNSQDs_keeps_keys l (ConnectToNSQD a s)) as Hkeep.
    unfold ConnectToNSQDs in Hkeep.
    assert (trace (ConnectToNSQD a s) = trace s ++ [EvConnect (length (heap s)) a]
            ∧ length (heap (ConnectToNSQD a s)) = S (length (heap s))
            ∧ conns_ (ConnectToNSQD a s) = conns_ s
            ∧ connecting_conns_ (ConnectToNSQD a s) !! a = Some (Some (length (heap s))))
      as (Htr1 & Hlen1 & Hcs1 & Hl1).
    { rewrite ConnectToNSQD_eq; simpl. rewrite length_app, lookup_insert_eq; simpl.
      repeat split; lia. }
    rewrite Htr, Hlen, Hcs, Htr1, Hlen1, Hcs1.
    split; [|split; [lia|split; [done|]]].
    + rewrite <- app_assoc. simpl. rewrite Nat.add_0_r. do 2 f_equal.
      apply imap_ext. intros i x _. simpl. f_equal. lia.
    + intros addr [->|Hl]%elem_of_cons; [|by apply Hin].
      apply Hkeep. by rewrite Hl1.
Qed.

(** X9. A Connecting report for an address under which
    [connecting_conns_] holds a connection (this one or another) is stale:
    the client is exactly as it was. *)
Theorem stale_Connecting_report_is_ignored (s : Client) (c c' : nat) :
  status_of s c = kConnecting →
  connecting_conns_ s !! addr_of s c = Some (Some c') →
  OnConnection c s = Ok s.
Proof.
  intros Hst Hl. rewrite OnConnection_connecting by done.
  by rewrite (MoveToConnectingList_stale s c c').
Qed.

Lemma stale_Connecting_report_is_ignored_witness :
  OnConnection 1%nat two_conn_pool = Ok two_conn_pool.
Proof.
  apply (stale_Connecting_report_is_ignored two_conn_pool 1%nat 1%nat);
    vm_compute; reflexivity.
Defined.

(** X10. Reconnect in place. A Connecting report from a connection of
    [conns_] whose address has no connection in [connecting_conns_] moves
    it: the connection is stored under its address in [connecting_conns_],
    one occurrence of it leaves [conns_], and nothing is requested or
    called. *)
Theorem Connecting_report_demotes_active_connection (s : Client) (c : nat) :
  status_of s c = kConnecting →
  c ∈ conns_ s →
  (∀ c', connecting_conns_ s !! addr_of s c ≠ Some (Some c')) →
  ∃ s', OnConnection c s = Ok s'
        ∧ connecting_conns_ s' = <[addr_of s c := Some c]> (connecting_conns_ s)
        ∧ conns_ s' = erase_first c (conns_ s)
        ∧ length (conns_ s') = (length (conns_ s) - 1)%nat
        ∧ trace s' = trace s ∧ heap s' = heap s ∧ pending s' = pending s.
Proof.
  intros Hst Hc Hl. rewrite OnConnection_connecting by done.
  rewrite MoveToConnectingList_demote by done.
  eexists; split; [reflexivity|]. simpl. repeat split.
  rewrite length_erase_first. by rewrite bool_decide_eq_true_2.
Qed.

Lemma Connecting_report_demotes_active_connection_witness :
  let s := set_status 0 kConnecting two_conn_pool in
  ∃ s', OnConnection 0%nat s = Ok s'
        ∧ connecting_conns_ s' = <[addr_of s 0%nat := Some 0%nat]> (connecting_conns_ s)
        ∧ conns_ s' = erase_first 0%nat (conns_ s)
        ∧ length (conns_ s') = (length (conns_ s) - 1)%nat
        ∧ trace s' = trace s ∧ heap s' = heap s ∧ pending s' = pending s.
Proof.
  intros s.
  apply (Connecting_report_demotes_active_connection s 0%nat).
  - vm_compute; reflexivity.
  - apply (bool_decide_unpack _). vm_compute. exact I.
  - intros c'. vm_compute. discriminate.
Defined.

(** X11. A Connecting report delivered twice has the effect of one:
    [MoveToConnectingList] applied to its own result changes nothing. *)
Theorem MoveToConnectingList_idempotent (s : Client) (c : nat) :
  MoveToConnectingList c (MoveToConnectingList c s) = MoveToConnectingList c s.
Proof.
  destruct (connecting_conns_ s !! addr_of s c) as [[c'|]|] eqn:Hl.
  - rewrite (MoveToConnectingList_stale s c c') by done.
    by apply (MoveToConnectingList_stale s c c').
  - destruct (decide (c ∈ conns_ s)) as [Hc|Hc].
    + rewrite (MoveToConnectingList_demote s c) by (try done; intros ?; by rewrite Hl).
      apply (MoveToConnectingList_stale _ c c). simpl.
      change (addr_of (set_conns _ (set_connecting _ s)) c) with (addr_of s c).
      by rewrite lookup_insert_eq.
    + rewrite (MoveToConnectingList_null s c) by (try done; intros ?; by rewrite Hl).
      rewrite insert_id, set_connecting_id by done.
      rewrite (MoveToConnectingList_null s c) by (try done; intros ?; by rewrite Hl).
      by rewrite insert_id, set_connecting_id.
  - destruct (decide (c ∈ conns_ s)) as [Hc|Hc].
    + rewrite (MoveToConnectingList_demote s c) by (try done; intros ?; by rewrite Hl).
      apply (MoveToConnectingList_stale _ c c). simpl.
      change (addr_of (set_conns _ (set_connecting _ s)) c) with (addr_of s c).
      by rewrite lookup_insert_eq.
    + rewrite (MoveToConnectingList_null s c) by (try done; intros ?; by rewrite Hl).
      rewrite (MoveToConnectingList_null _ c); simpl.
      * change (addr_of (set_connecting _ s) c) with (addr_of s c).
        by rewrite insert_insert_eq.
      * done.
      * intros c'.
        change (addr_of (set_connecting _ s) c) with (addr_of s c).
        by rewrite lookup_insert_eq.
Qed.

(** ** Disconnects and teardown *)

Section disconnect_facts.
Implicit Types (s : Client) (c : nat).

Lemma Report_disconnected_eq s c :
  Report c kDisconnected s =
  let s0 := set_status c kDisconnected s in
  let s2 := set_connecting (delete (addr_of s c) (connecting_conns_ s))
              (set_conns (erase_first c (conns_ s)) s0) in
  Ok (QueueInLoop (TaskCheckDisconnected c)
        (if bool_decide (delete (addr_of s c) (connecting_conns_ s) = ∅)
            && bool_decide (erase_first c (conns_ s) = [])
         then (if close_fn_ s then emit EvCloseFn s2 else s2)
         else s2)).
Proof.
  unfold Report.
  rewrite OnConnection_disconnected by apply status_of_set_disconnected.
  rewrite addr_of_set_status. reflexivity.
Qed.

Lemma erase_first_snoc_perm c (l : list nat) :
  c ∈ l → erase_first c l ++ [c] ≡ₚ l.
Proof.
  induction l as [|x l IH]; simpl; [by intros ?%elem_of_nil|].
  destruct (decide (x = c)) as [->|Hx].
  - intros _. symmetry. apply Permutation_cons_append.
  - intros [?|Hin]%elem_of_cons; [congruence|].
    simpl. by rewrite IH.
Qed.

Lemma non_null_of_inv s :
  pool_inv false s → forallb non_null (map_to_list (connecting_conns_ s)) = true.
Proof.
  intros Hinv. apply forallb_forall.
  intros [a [c|]] Hin%list_elem_of_In%elem_of_map_to_list; [done|].
  by apply (inv_null _ _ _ _ Hinv) in Hin.
Qed.

End disconnect_facts.

(** X12. The emptiness test of the Disconnected branch is not tied to a
    removal: a Disconnected report that reaches a pool whose two collections
    are already empty invokes [close_fn_] (again), and leaves the pool in
    the state in which the next such report will do the same. *)
Theorem Disconnected_report_on_empty_pool_invokes_close_fn (s : Client) (c : nat) :
  pool_empty s → close_fn_ s = true →
  ∃ s', Report c kDisconnected s = Ok s'
        ∧ trace s' = trace s ++ [EvCloseFn]
        ∧ pool_empty s' ∧ close_fn_ s' = true.
Proof.
  intros [Hm Hc] Hcf. rewrite Report_disconnected_eq. simpl.
  rewrite Hm, Hc, Hcf. simpl. rewrite delete_empty.
  rewrite (bool_decide_eq_true_2 (∅ = ∅)) by done. simpl.
  eexists; split; [reflexivity|]. simpl. repeat split; done.
Qed.

Lemma Disconnected_report_on_empty_pool_invokes_close_fn_witness :
  let s := or_else (disconnect_all [1%nat; 0%nat] two_conn_pool) two_conn_pool in
  ∃ s', Report 0%nat kDisconnected s = Ok s'
        ∧ trace s' = trace s ++ [EvCloseFn]
        ∧ pool_empty s' ∧ close_fn_ s' = true.
Proof.
  intros s.
  apply (Disconnected_report_on_empty_pool_invokes_close_fn s 0%nat).
  - split; vm_compute; reflexivity.
  - vm_compute; reflexivity.
Defined.

(** X13. Every Disconnected report queues the diagnostic functor for the
    reporting connection behind what the loop already holds; run on the
    state the report leaves, the functor finds the connection disconnected
    and changes nothing. *)
Theorem Disconnected_report_queues_check (s : Client) (c : nat) :
  ∃ s', Report c kDisconnected s = Ok s'
        ∧ pending s' = pending s ++ [TaskCheckDisconnected c]
        ∧ RunTask (TaskCheckDisconnected c) s' = Ok s'.
Proof.
  rewrite Report_disconnected_eq. eexists; split; [reflexivity|]. split.
  - simpl. by destruct (_ && _); [destruct (close_fn_ s)|].
  - simpl. unfold CheckDisconnectedTask, IsDisconnected.
    match goal with |- context [deref ?x c] =>
      assert (status (deref x c) = kDisconnected) as ->
    end; [|done].
    match goal with |- context [deref ?x c] =>
      change (status (deref x c)) with (status_of x c);
      rewrite (status_of_heap x (set_status c kDisconnected s))
    end.
    + apply status_of_set_disconnected.
    + by destruct (_ && _); [destruct (close_fn_ s)|].
Qed.

(** X14. The teardown functor calls [Close()] through every entry of
    [connecting_conns_]: a null entry, such as a Connecting report for an
    unknown address leaves behind, is dereferenced. *)
Theorem teardown_dereferences_null_entry (s : Client) (a : string) :
  connecting_conns_ s !! a = Some None →
  RunTask TaskClose s = Crash NullDeref.
Proof.
  intros Hl. simpl. rewrite CloseTask_eq.
  destruct (forallb non_null _) eqn:Hall; [|done].
  rewrite forallb_forall in Hall.
  specialize (Hall (a, None)). simpl in Hall. discriminate Hall.
  apply list_elem_of_In. by apply elem_of_map_to_list.
Qed.

Lemma teardown_dereferences_null_entry_witness :
  let s1 := ConnectToNSQD "10.0.0.1:4150" (new_Client kConsumer "t" "c" true false true) in
  let s2 := or_else (Report 0%nat kDisconnected s1) s1 in
  let s3 := or_else (Report 0%nat kConnecting s2) s2 in
  RunTask TaskClose (Close s3) = Crash NullDeref.
Proof.
  intros s1 s2 s3.
  apply (teardown_dereferences_null_entry (Close s3) "10.0.0.1:4150").
  vm_compute; reflexivity.
Defined.

(** X15. In an orderly run no connection is listed twice in [conns_], no
    two active connections have the same address, and every connection held
    by [connecting_conns_] is a live object stored under its own remote
    address and not listed in [conns_]. *)
Theorem orderly_runs_keep_pool_well_formed (s : Client) :
  reach orderly s →
  NoDup (conns_ s)
  ∧ NoDup (active_addrs s)
  ∧ ∀ a c, connecting_conns_ s !! a = Some (Some c) →
           addr_of s c = a ∧ allocated s c = true ∧ c ∉ conns_ s.
Proof.
  intros Hinv%reach_orderly_inv. destruct Hinv as [H1 H2 H3 H4 H5].
  split; [by apply (NoDup_fmap_1 (addr_in (heap s)))|]. split; [done|].
  intros a c Hl. destruct (H3 a c Hl) as [Hlt Ha]. split; [done|].
  split; [by apply bool_decide_eq_true|].
  intros Hc. apply (H5 a); [by rewrite Hl|]. rewrite <- Ha.
  apply list_elem_of_fmap. eauto.
Qed.

Lemma orderly_runs_keep_pool_well_formed_witness :
  let s0 := new_Client kConsumer "t" "c" true false true in
  let s1 := ConnectToNSQD "10.0.0.1:4150" s0 in
  let s2 := or_else (Report 0%nat kConnected s1) s1 in
  let s3 := or_else (HandleLoopkupdHTTPResponse
                       (lookupd_ok [("10.0.0.1", 4150); ("10.0.0.2", 4150)]) s2) s2 in
  NoDup (conns_ s3)
  ∧ NoDup (active_addrs s3)
  ∧ ∀ a c, connecting_conns_ s3 !! a = Some (Some c) →
           addr_of s3 c = a ∧ allocated s3 c = true ∧ c ∉ conns_ s3.
Proof.
  intros s0 s1 s2 s3.
  apply (orderly_runs_keep_pool_well_formed s3).
  apply (reach_step orderly s2
           (OpLookupdResponse (lookupd_ok [("10.0.0.1", 4150); ("10.0.0.2", 4150)])));
    [|vm_compute; reflexivity|vm_compute; reflexivity].
  apply (reach_step orderly s1 (OpReport 0%nat kConnected));
    [|vm_compute; reflexivity|vm_compute; reflexivity].
  apply (reach_step orderly s0 (OpConnectToNSQD "10.0.0.1:4150"));
    [|vm_compute; reflexivity|vm_compute; reflexivity].
  apply reach_new.
Defined.

(** X16. A Disconnected report erases by identity in [conns_] and by
    address in [connecting_conns_]: one listing of the connection leaves
    [conns_] if it is listed, and the entry under the connection's address
    is erased whichever connection it holds; every other entry stays. *)
Theorem Disconnected_report_erases (s : Client) (c : nat) :
  ∃ s', Report c kDisconnected s = Ok s'
        ∧ conns_ s' = erase_first c (conns_ s)
        ∧ length (conns_ s')
          = (length (conns_ s) - (if bool_decide (c ∈ conns_ s) then 1 else 0))%nat
        ∧ connecting_conns_ s' !! addr_of s c = None
        ∧ ∀ a, a ≠ addr_of s c → connecting_conns_ s' !! a = connecting_conns_ s !! a.
Proof.
  rewrite Report_disconnected_eq. eexists; split; [reflexivity|].
  assert (∀ s0 : Client,
            conns_ s0 = erase_first c (conns_ s) →
            connecting_conns_ s0 = delete (addr_of s c) (connecting_conns_ s) →
            conns_ s0 = erase_first c (conns_ s)
            ∧ length (conns_ s0)
              = (length (conns_ s) - (if bool_decide (c ∈ conns_ s) then 1 else 0))%nat
            ∧ connecting_conns_ s0 !! addr_of s c = None
            ∧ ∀ a, a ≠ addr_of s c →
                   connecting_conns_ s0 !! a = connecting_conns_ s !! a) as Hgen.
  { intros s0 Hcs Hm. rewrite Hcs, Hm. split; [done|].
    split; [apply length_erase_first|]. split; [apply lookup_delete_eq|].
    intros a Ha. by apply lookup_delete_ne. }
  simpl. destruct (_ && _); [destruct (close_fn_ s)|]; by apply Hgen.
Qed.

(** X17. Reconnect round trip. An active connection whose address has no
    entry in [connecting_conns_], and which reports Connecting and then
    Connected, is back in [conns_] (now at its end) and [connecting_conns_]
    is what it was before the two reports. *)
Theorem reconnect_round_trip (s : Client) (c : nat) :
  allocated s c = true →
  c ∈ conns_ s →
  connecting_conns_ s !! addr_of s c = None →
  ∃ s1 s2, Report c kConnecting s = Ok s1
           ∧ Report c kConnected s1 = Ok s2
           ∧ connecting_conns_ s2 = connecting_conns_ s
           ∧ conns_ s2 = erase_first c (conns_ s) ++ [c]
           ∧ conns_ s2 ≡ₚ conns_ s.
Proof.
  intros Halloc%bool_decide_eq_true Hc Hl.
  assert (∃ s1, Report c kConnecting s = Ok s1
                ∧ heap s1 = heap (set_status c kConnecting s)
                ∧ type_ s1 = type_ s
                ∧ ready_to_publish_fn_ s1 = ready_to_publish_fn_ s
                ∧ conns_ s1 = erase_first c (conns_ s)
                ∧ connecting_conns_ s1 = <[addr_of s c := Some c]> (connecting_conns_ s))
    as (s1 & Hr1 & Hh1 & Hty1 & Hrf1 & Hcs1 & Hm1).
  { unfold Report. rewrite OnConnection_connecting by by apply status_of_set_status.
    rewrite MoveToConnectingList_demote.
    - rewrite addr_of_set_status. eexists; split; [reflexivity|]. done.
    - done.
    - intros c'. rewrite addr_of_set_status. simpl. by rewrite Hl. }
  assert (addr_of s1 c = addr_of s c) as Ha1.
  { rewrite (addr_of_heap s1 (set_status c kConnecting s)) by done.
    apply addr_of_set_status. }
  assert (length (heap s1) = length (heap s)) as Hlen1.
  { rewrite Hh1. simpl. apply length_alter. }
  exists s1.
  cut (∃ s2, Report c kConnected s1 = Ok s2
             ∧ connecting_conns_ s2 = connecting_conns_ s
             ∧ conns_ s2 = erase_first c (conns_ s) ++ [c]
             ∧ conns_ s2 ≡ₚ conns_ s).
  { intros (s2 & ? & ? & ? & ?). by exists s2. }
  unfold Report.
  rewrite OnConnection_connected
    by (apply status_of_set_status; by rewrite Hlen1).
  rewrite addr_of_set_status, Ha1. simpl. rewrite Hcs1, Hm1, Hty1, Hrf1.
  assert (delete (addr_of s c) (<[addr_of s c := Some c]> (connecting_conns_ s))
          = connecting_conns_ s) as Hdel.
  { rewrite delete_insert_eq. by apply delete_id. }
  destruct (type_ s); [destruct (ready_to_publish_fn_ s)|];
    (eexists; split; [reflexivity|]; simpl;
     split; [exact Hdel|]; split; [done|]; by apply erase_first_snoc_perm).
Qed.

Lemma reconnect_round_trip_witness :
  ∃ s1 s2, Report 0%nat kConnecting two_conn_pool = Ok s1
           ∧ Report 0%nat kConnected s1 = Ok s2
           ∧ connecting_conns_ s2 = connecting_conns_ two_conn_pool
           ∧ conns_ s2 = erase_first 0%nat (conns_ two_conn_pool) ++ [0%nat]
           ∧ conns_ s2 ≡ₚ conns_ two_conn_pool.
Proof.
  apply (reconnect_round_trip two_conn_pool 0%nat).
  - vm_compute; reflexivity.
  - apply (bool_decide_unpack _). vm_compute. exact I.
  - vm_compute; reflexivity.
Defined.

Global Instance key_le_total : Total key_le.
Proof. intros x y. apply String.leb_total. Qed.

Lemma entries_in_key_order_sorted (m : gmap string (option nat)) :
  Sorted (λ a b, String.leb a b = true) (entries_in_key_order m).*1.
Proof.
  apply (Sorted_fmap _ key_le); [done|].
  apply (Sorted_merge_sort key_le).
Qed.

Lemma connecting_addrs_keys (h : list NSQConn) (l : list (string * option nat)) :
  (∀ a oc, (a, oc) ∈ l → ∃ c, oc = Some c ∧ addr_in h c = a) →
  addr_in h <$> omap snd l = l.*1.
Proof.
  induction l as [|[a oc] l IH]; intros Hl; simpl; [done|].
  destruct (Hl a oc) as (c & -> & Ha); [by left|]. simpl.
  f_equal; [done|]. apply IH. intros a' oc' Hin. apply Hl. by right.
Qed.

(** X18. On a well-formed pool the teardown functor returns and asks every
    connection the pool holds to close exactly once: the active ones in the
    order of [conns_], then the connecting ones in ascending order of their
    addresses, the order in which the map is walked. The two collections
    themselves are left as they are (the connections leave them through
    their Disconnected reports). *)
Theorem teardown_closes_each_connection_once (s : Client) :
  pool_ok false s = true →
  ∃ s', RunTask TaskClose s = Ok s'
        ∧ trace s' = trace s ++ (EvConnClose <$> conns_ s)
                             ++ (EvConnClose <$> connecting_ptrs s)
                             ++ (EvTimerCancel <$> lookupd_timers_ s)
        ∧ NoDup (conns_ s ++ connecting_ptrs s)
        ∧ (∀ c, c ∈ connecting_ptrs s
                ↔ ∃ a, connecting_conns_ s !! a = Some (Some c))
        ∧ Sorted (λ a b, String.leb a b = true) (addr_of s <$> connecting_ptrs s)
        ∧ conns_ s' = conns_ s
        ∧ connecting_conns_ s' = connecting_conns_ s
        ∧ lookupd_timers_ s' = [].
Proof.
  intros Hinv%pool_ok_inv. simpl.
  rewrite CloseTask_eq, non_null_of_inv by done.
  eexists; split; [reflexivity|]. simpl.
  split; [unfold pool_conns; by rewrite fmap_app, <- app_assoc|].
  split; [by apply (NoDup_pool_conns false)|].
  split.
  { intros c. unfold connecting_ptrs. rewrite list_elem_of_omap. split.
    - intros ([a oc] & Hin%elem_of_entries_in_key_order & Hs).
      simpl in Hs. subst oc. eauto.
    - intros [a Hl]. exists (a, Some c).
      split; [by apply elem_of_entries_in_key_order | done]. }
  split; [|done].
  unfold connecting_ptrs.
  change (addr_of s) with (addr_in (heap s)).
  rewrite (connecting_addrs_keys (heap s)); [apply entries_in_key_order_sorted|].
  intros a [c|] Hin%elem_of_entries_in_key_order.
  - exists c. split; [done|]. by apply (inv_entry _ _ _ _ Hinv).
  - by apply (inv_null _ _ _ _ Hinv) in Hin.
Qed.

Lemma teardown_closes_each_connection_once_witness :
  let s := ConnectToNSQDs ["10.0.0.4:4150"; "10.0.0.3:4150"; "10.0.0.10:4150"]
             two_conn_pool in
  ∃ s', RunTask TaskClose s = Ok s'
        ∧ trace s' = trace s ++ (EvConnClose <$> conns_ s)
                             ++ (EvConnClose <$> connecting_ptrs s)
                             ++ (EvTimerCancel <$> lookupd_timers_ s)
        ∧ NoDup (conns_ s ++ connecting_ptrs s)
        ∧ (∀ c, c ∈ connecting_ptrs s
                ↔ ∃ a, connecting_conns_ s !! a = Some (Some c))
        ∧ Sorted (λ a b, String.leb a b = true) (addr_of s <$> connecting_ptrs s)
        ∧ conns_ s' = conns_ s
        ∧ connecting_conns_ s' = connecting_conns_ s
        ∧ lookupd_timers_ s' = [].
Proof.
  intros s. apply (teardown_closes_each_connection_once s).
  vm_compute; reflexivity.
Defined.

(** The close requests of that pool, in the order the code sends them:
    the active connection, then the connecting ones by address
    ("10.0.0.10:4150" comes before "10.0.0.2:4150", as '1' is below '2'). *)
Example teardown_order :
  let s := ConnectToNSQDs ["10.0.0.4:4150"; "10.0.0.3:4150"; "10.0.0.10:4150"]
             two_conn_pool in
  conns_ s = [0%nat]
  ∧ entries_in_key_order (connecting_conns_ s)
    = [("10.0.0.10:4150", Some 4%nat); ("10.0.0.2:4150", Some 1%nat);
       ("10.0.0.3:4150", Some 3%nat); ("10.0.0.4:4150", Some 2%nat)]
  ∧ pool_conns s = [0; 4; 1; 3; 2]%nat.
Proof. intros s. repeat split; vm_compute; reflexivity. Qed.

(** X19. A Ready report that reaches a producer fails
    [assert(type_ == kConsumer)]. *)
Theorem Ready_report_to_producer_fails_assertion (s : Client) (c : nat) :
  type_ s = kProducer → allocated s c = true →
  Report c kReady s = Crash AssertFailed.
Proof.
  intros Hty Halloc%bool_decide_eq_true. unfold Report.
  rewrite OnConnection_ready by by apply status_of_set_status.
  simpl. by rewrite Hty.
Qed.

Lemma Ready_report_to_producer_fails_assertion_witness :
  Report 0%nat kReady two_conn_pool = Crash AssertFailed.
Proof.
  apply (Ready_report_to_producer_fails_assertion two_conn_pool 0%nat);
    vm_compute; reflexivity.
Defined.

(** X20. Callbacks that were not set are skipped: a producer without a
    ready-to-publish callback still takes the connection into [conns_] and
    sets it Ready, and a client without a close callback drains without any
    invocation, whatever the pool holds. *)
Theorem unset_callbacks_are_skipped (s : Client) (c : nat) :
  allocated s c = true →
  (type_ s = kProducer → ready_to_publish_fn_ s = false →
   ∃ s', Report c kConnected s = Ok s'
         ∧ trace s' = trace s ∧ status_of s' c = kReady
         ∧ conns_ s' = conns_ s ++ [c])
  ∧ (close_fn_ s = false →
     ∃ s', Report c kDisconnected s = Ok s' ∧ trace s' = trace s).
Proof.
  intros Halloc%bool_decide_eq_true. split.
  - intros Hty Hrf. unfold Report.
    rewrite OnConnection_connected by by apply status_of_set_status.
    simpl. rewrite Hty, Hrf. eexists; split; [reflexivity|]. simpl.
    split; [done|]. split; [|done].
    rewrite (status_of_heap _ (set_status c kReady (set_status c kConnected s)))
      by done.
    apply status_of_set_status. simpl. by rewrite length_alter.
  - intros Hcf. rewrite Report_disconnected_eq. simpl. rewrite Hcf.
    eexists; split; [reflexivity|]. by destruct (_ && _).
Qed.

Lemma unset_callbacks_are_skipped_witness :
  let s := ConnectToNSQD "10.0.0.1:4150" (new_Client kProducer "" "" true false false) in
  (type_ s = kProducer → ready_to_publish_fn_ s = false →
   ∃ s', Report 0%nat kConnected s = Ok s'
         ∧ trace s' = trace s ∧ status_of s' 0%nat = kReady
         ∧ conns_ s' = conns_ s ++ [0%nat])
  ∧ (close_fn_ s = false →
     ∃ s', Report 0%nat kDisconnected s = Ok s' ∧ trace s' = trace s).
Proof.
  intros s. apply (unset_callbacks_are_skipped s 0%nat). vm_compute; reflexivity.
Defined.

(** ** Reconciliation *)

Section reconcile_facts.
Implicit Types (s : Client) (a addr : string).

Lemma IsKnown_ConnectToNSQD_iff a addr s :
  conns_allocated s = true →
  IsKnownNSQDAddress a (ConnectToNSQD addr s) = true
  ↔ a = addr ∨ IsKnownNSQDAddress a s = true.
Proof.
  intros Halloc. rewrite !IsKnownNSQDAddress_true.
  unfold in_connecting, in_active. rewrite active_addrs_ConnectToNSQD by done.
  rewrite ConnectToNSQD_eq; simpl. rewrite lookup_insert_is_Some.
  split.
  - intros [[->|[_ ?]]|?]; auto.
  - intros [->|[?|?]]; auto.
    destruct (decide (addr = a)); auto.
Qed.

(** The addresses that the handler's loop connects to. *)
Lemma connect_unknown_trace (producers : list (string * Z)) s :
  conns_allocated s = true →
  ∃ new_addrs,
    trace (foldl (λ s hp, connect_unknown (nsqd_addr hp) s) s producers)
    = trace s ++ imap (λ i a, EvConnect (length (heap s) + i) a) new_addrs
    ∧ NoDup new_addrs
    ∧ ∀ a, a ∈ new_addrs
           ↔ a ∈ nsqd_addr <$> producers ∧ IsKnownNSQDAddress a s = false.
Proof.
  revert s. induction producers as [|hp l IH]; intros s Halloc; simpl.
  - exists []. simpl. rewrite app_nil_r. split; [done|]. split; [constructor|].
    intros a. split; [by intros ?%elem_of_nil | by intros [?%elem_of_nil _]].
  - unfold connect_unknown at 2.
    destruct (IsKnownNSQDAddress (nsqd_addr hp) s) eqn:Hk.
    + destruct (IH s Halloc) as (new & Htr & Hnd & Hmem).
      exists new. split; [done|]. split; [done|].
      intros a. rewrite Hmem, elem_of_cons. split; [by intros [? ?]; auto|].
      intros [[->|?] Hf]; [congruence | done].
    + destruct (IH (ConnectToNSQD (nsqd_addr hp) s)) as (new & Htr & Hnd & Hmem);
        [by apply conns_allocated_ConnectToNSQD|].
      exists (nsqd_addr hp :: new). split; [|split].
      * rewrite Htr, ConnectToNSQD_eq; simpl. rewrite length_app; simpl.
        rewrite <- app_assoc. simpl. rewrite Nat.add_0_r. do 2 f_equal.
        apply imap_ext. intros i x _. simpl. f_equal. lia.
      * apply NoDup_cons. split; [|done]. intros [_ Hf]%Hmem.
        by rewrite IsKnown_ConnectToNSQD_same in Hf.
      * intros a. rewrite !elem_of_cons, Hmem.
        rewrite <- !not_true_iff_false, IsKnown_ConnectToNSQD_iff by done.
        split.
        -- intros [->|[Hin Hn]]; [split; [by left | by rewrite Hk]|].
           split; [by right | tauto].
        -- intros [[->|Hin] Hn]; [by left|].
           destruct (decide (a = nsqd_addr hp)); [by left|]. right. tauto.
Qed.

End reconcile_facts.

(** X21. Reconciliation. A successful response in the documented shape
    makes the handler connect exactly to the listed addresses that were not
    known, once each even when the response lists an address twice; the
    connect requests are all that is added to the trace. *)
Theorem discovery_connects_once_per_unknown_address
    (producers : list (string * Z)) (s : Client) :
  conns_allocated s = true →
  forallb (λ hp, is_int hp.2) producers = true →
  ∃ s' new_addrs,
    HandleLoopkupdHTTPResponse (lookupd_ok producers) s = Ok s'
    ∧ trace s' = trace s ++ imap (λ i a, EvConnect (length (heap s) + i) a) new_addrs
    ∧ NoDup new_addrs
    ∧ ∀ a, a ∈ new_addrs
           ↔ a ∈ nsqd_addr <$> producers ∧ IsKnownNSQDAddress a s = false.
Proof.
  intros Halloc Hint.
  rewrite HandleLoopkupdHTTPResponse_ok, connect_producers_records by done.
  destruct (connect_unknown_trace producers s Halloc) as (new & Htr & Hnd & Hmem).
  eexists; exists new. split; [reflexivity|]. done.
Qed.

Lemma discovery_connects_once_per_unknown_address_witness :
  ∃ s' new_addrs,
    HandleLoopkupdHTTPResponse
      (lookupd_ok [("10.0.0.1", 4150); ("10.0.0.3", 4150); ("10.0.0.3", 4150)])
      two_conn_pool = Ok s'
    ∧ trace s' = trace two_conn_pool
                 ++ imap (λ i a, EvConnect (length (heap two_conn_pool) + i) a) new_addrs
    ∧ NoDup new_addrs
    ∧ ∀ a, a ∈ new_addrs
           ↔ a ∈ nsqd_addr <$> [("10.0.0.1", 4150); ("10.0.0.3", 4150); ("10.0.0.3", 4150)]
             ∧ IsKnownNSQDAddress a two_conn_pool = false.
Proof.
  apply (discovery_connects_once_per_unknown_address
           [("10.0.0.1", 4150); ("10.0.0.3", 4150); ("10.0.0.3", 4150)] two_conn_pool);
    vm_compute; reflexivity.
Defined.

(** X22. [ConnectToLookupd] does not touch the pool: it sends one query at
    once, registers one periodic query and keeps its handle at the end of
    the timer list. The teardown that a later [Close()] queues cancels that
    handle and leaves the timer list empty. *)
Theorem ConnectToLookupd_timer_is_cancelled_by_teardown (url : string) (s : Client) :
  forallb non_null (map_to_list (connecting_conns_ s)) = true →
  let s1 := ConnectToLookupd url s in
  trace s1 = trace s ++ [EvHttpGet url; EvRunEvery (next_timer s) url]
  ∧ lookupd_timers_ s1 = lookupd_timers_ s ++ [next_timer s]
  ∧ conns_ s1 = conns_ s ∧ connecting_conns_ s1 = connecting_conns_ s
  ∧ heap s1 = heap s
  ∧ ∃ s2, RunTask TaskClose (Close s1) = Ok s2
          ∧ EvTimerCancel (next_timer s) ∈ trace s2
          ∧ lookupd_timers_ s2 = [].
Proof.
  intros Hnn s1. subst s1.
  split; [unfold ConnectToLookupd, emit; simpl; by rewrite <- app_assoc|].
  split; [done|]. split; [done|]. split; [done|]. split; [done|].
  simpl. rewrite CloseTask_eq. simpl. rewrite Hnn.
  eexists; split; [reflexivity|]. simpl. split; [|done].
  rewrite fmap_app. simpl. rewrite !elem_of_app. right. right. right.
  apply list_elem_of_here.
Qed.

Lemma ConnectToLookupd_timer_is_cancelled_by_teardown_witness :
  let url := "http://127.0.0.1:4161/lookup?topic=test" in
  let s := two_conn_pool in
  let s1 := ConnectToLookupd url s in
  trace s1 = trace s ++ [EvHttpGet url; EvRunEvery (next_timer s) url]
  ∧ lookupd_timers_ s1 = lookupd_timers_ s ++ [next_timer s]
  ∧ conns_ s1 = conns_ s ∧ connecting_conns_ s1 = connecting_conns_ s
  ∧ heap s1 = heap s
  ∧ ∃ s2, RunTask TaskClose (Close s1) = Ok s2
          ∧ EvTimerCancel (next_timer s) ∈ trace s2
          ∧ lookupd_timers_ s2 = [].
Proof.
  intros url s.
  apply (ConnectToLookupd_timer_is_cancelled_by_teardown url s).
  vm_compute; reflexivity.
Defined.

(** ** Where well-formed pools come from *)

(** Orderly operations in which, moreover, a Connecting report comes from a
    connection listed in [conns_] or is stale (its address has a connection
    in [connecting_conns_]), so that [operator[]] never leaves a null
    entry. *)
Definition tidy (s : Client) (op : Op) : bool :=
  orderly s op &&
  match op with
  | OpReport conn kConnecting =>
      bool_decide (conn ∈ conns_ s)
      || match connecting_conns_ s !! addr_of s conn with
         | Some (Some _) => true
         | _ => false
         end
  | _ => true
  end.

Section tidy_facts.
Implicit Types (s : Client) (c : nat).

Lemma pool_inv_ok nulls s : pool_inv nulls s → pool_ok nulls s = true.
Proof.
  intros [H1 H2 H3 H4 H5]. unfold pool_ok.
  apply andb_true_intro. split; [apply andb_true_intro; split|].
  - apply forallb_forall. intros c Hc%list_elem_of_In.
    by apply bool_decide_eq_true, H1.
  - by apply bool_decide_eq_true.
  - apply forallb_forall. intros [a oc] Hin%list_elem_of_In%elem_of_map_to_list.
    unfold entry_ok; simpl. apply andb_true_intro. split.
    + destruct oc as [c|]; [|by apply (H4 a)].
      destruct (H3 a c Hin) as [Hlt Ha]. unfold allocated.
      apply andb_true_intro. split; by apply bool_decide_eq_true.
    + apply bool_decide_eq_true. apply H5. by rewrite Hin.
Qed.

Lemma MoveToConnectingList_inv_tidy s c :
  c ∈ conns_ s ∨ (∃ c', connecting_conns_ s !! addr_of s c = Some (Some c')) →
  pool_inv false s → pool_inv false (MoveToConnectingList c s).
Proof.
  intros Hguard Hinv.
  destruct (connecting_conns_ s !! addr_of s c) as [[c'|]|] eqn:Hl.
  - by rewrite (MoveToConnectingList_stale s c c').
  - by apply (inv_null _ _ _ _ Hinv) in Hl.
  - destruct Hguard as [Hc|[c' [=]]].
    rewrite MoveToConnectingList_demote; [|done|intros c'; by rewrite Hl].
    unfold pool_inv; simpl. by apply inv_on_demote.
Qed.

Lemma Report_inv_tidy s c st s' :
  tidy s (OpReport c st) = true →
  Report c st s = Ok s' → pool_inv false s → pool_inv false s'.
Proof.
  unfold tidy, orderly.
  intros [[Halloc%bool_decide_eq_true Hguard]%andb_prop Htidy]%andb_prop Hrun Hinv.
  unfold Report in Hrun.
  assert (pool_inv false (set_status c st s)) as Hinv0
    by by apply inv_on_set_status.
  pose proof (status_of_set_status s c st Halloc) as Hst.
  destruct st.
  - rewrite OnConnection_disconnected in Hrun by done.
    injection Hrun as <-. unfold pool_inv.
    match goal with |- context [if ?b then _ else _] => destruct b end;
      [destruct (close_fn_ _)|]; simpl; by apply inv_on_remove.
  - rewrite OnConnection_connecting in Hrun by done.
    injection Hrun as <-. apply MoveToConnectingList_inv_tidy; [|done].
    rewrite addr_of_set_status. simpl.
    apply orb_prop in Htidy as [?%bool_decide_eq_true|Hstale]; [by left|].
    right. destruct (connecting_conns_ s !! addr_of s c) as [[c'|]|]; by eauto.
  - apply bool_decide_eq_true in Hguard.
    rewrite OnConnection_connected in Hrun by done.
    rewrite addr_of_set_status in Hrun. simpl in Hrun.
    assert (inv_on false (heap (set_status c kConnected s)) (conns_ s ++ [c])
              (delete (addr_of s c) (connecting_conns_ s))) as Hup.
    { rewrite <- (addr_of_set_status s c kConnected c).
      apply inv_on_promote; [simpl; by rewrite length_alter | | done].
      change (is_Some (connecting_conns_ s !! addr_of (set_status c kConnected s) c)).
      by rewrite addr_of_set_status. }
    destruct (type_ s); injection Hrun as <-.
    + destruct (ready_to_publish_fn_ s); unfold pool_inv; simpl;
        by apply inv_on_set_status.
    + done.
  - apply bool_decide_eq_true in Hguard.
    rewrite OnConnection_ready in Hrun by done.
    rewrite addr_of_set_status in Hrun. simpl in Hrun.
    destruct (type_ s); [done|]. injection Hrun as <-.
    unfold pool_inv; simpl.
    rewrite <- (addr_of_set_status s c kReady c).
    apply inv_on_promote; [simpl; by rewrite length_alter | | done].
    change (is_Some (connecting_conns_ s !! addr_of (set_status c kReady s) c)).
    by rewrite addr_of_set_status.
Qed.

Lemma apply_op_inv_tidy s op s' :
  tidy s op = true → apply_op op s = Ok s' →
  pool_inv false s → pool_inv false s'.
Proof.
  destruct op as [addr|url|response|c st| |].
  - unfold tidy; simpl. rewrite andb_true_r.
    intros Hk%negb_true_iff [= <-]. by apply ConnectToNSQD_inv.
  - simpl. by intros _ [= <-].
  - simpl. intros _. apply HandleLoopkupdHTTPResponse_inv.
  - apply Report_inv_tidy.
  - simpl. by intros _ [= <-].
  - simpl. intros _. apply RunPending_inv.
Qed.

(** Every pool that a tidy run reaches passes [pool_ok false]. *)
Lemma tidy_runs_are_well_formed s : reach tidy s → pool_ok false s = true.
Proof.
  intros Hreach. apply pool_inv_ok.
  induction Hreach as [|s op s' _ IH Hg Hstep]; [apply inv_new|].
  by apply (apply_op_inv_tidy s op).
Qed.

End tidy_facts.
